(** * The mapping-driven transformation of the core-banking migration

    A shallow embedding of [etl_scripts/customer_prof_tbl.py] and
    [etl_scripts/customer_tbl.py]: the JSON document builder [build_json]
    and the two [transform_data] pipelines, over a model of the pandas
    operations they call.

    Modelling level.
    - A DataFrame is its ordered column labels, which may repeat, and its
      rows; a row carries its index label and the Python objects of its
      cells.  Column dtypes are not modelled: a cell is the object that
      reading the row gives (a [datetime64] cell is a Timestamp or NaT), and
      no numeric promotion takes place when NaN enters a column.
    - Field names are strings; the values of a defaults table are scalars,
      as spreadsheet cells are.
    - An operation that can raise returns a [result]; the exception is the
      one pandas raises.
    - What the libraries decide on their own is gathered in the class
      [PyLib]: the iteration order of a [set], the parser behind
      [pd.to_datetime], the dtype check and the key equality of [pd.merge],
      the [str()] of containers.  Every theorem holds for every choice. *)

From Stdlib Require Import ZArith Ascii String List Lia.
From stdpp Require Import base option list strings gmap sets pretty.

Set Warnings "-register-all,-clear-no-such-hyp".

(** ** Exceptions and fallible results *)

Inductive exn :=
| KeyError
| ValueError
| TypeError
| MergeError
| InvalidIndexError.

Inductive result (A : Type) :=
| Ok (a : A)
| Raise (e : exn).
Arguments Ok {A} a.
Arguments Raise {A} e.

#[global] Instance result_ret : MRet result := @Ok.
#[global] Instance result_bind : MBind result := λ A B k r,
  match r with
  | Ok a => k a
  | Raise e => Raise e
  end.

Definition is_Ok {A} (r : result A) : Prop := ∃ a, r = Ok a.

(** [for x in xs: acc = step(acc, x)] with a body that may raise. *)
Fixpoint for_each {A S} (step : S → A → result S) (xs : list A) (acc : S)
  : result S :=
  match xs with
  | [] => Ok acc
  | x :: rest => acc' ← step acc x; for_each step rest acc'
  end.

(** ** Python values *)

(** A [pd.Timestamp] of nanosecond resolution, seen through its fields. *)
Record Timestamp := {
  ts_year : nat;
  ts_month : nat;
  ts_day : nat;
  ts_time_ns : nat  (* nanoseconds since midnight *)
}.


(** Scalars: what a spreadsheet cell or a scalar SQL column yields.
    [SFloat r] is a float other than NaN and [SOther r] an object of any
    other type that pandas stores as it is (Decimal, UUID,
    datetime.date, ...); both are identified by their [str()]. *)
Inductive scalar :=
| SNone
| SNaN
| SNaT
| SBool (b : bool)
| SInt (z : Z)
| SFloat (r : string)
| SStr (s : string)
| STimestamp (t : Timestamp)
| SOther (r : string).

Inductive pyval :=
| Scalar (s : scalar)
| VList (l : list pyval)
| VDict (d : list (string * pyval)).

Coercion Scalar : scalar >-> pyval.

(** An insertion-ordered Python [dict] with string keys. *)
Abbreviation pydict := (list (string * pyval)).

(** [d[k] = v]: an existing key keeps its place, a new key goes last. *)
Fixpoint dict_set (d : pydict) (k : string) (v : pyval) : pydict :=
  match d with
  | [] => [(k, v)]
  | (k', v') :: d' =>
      if decide (k' = k) then (k, v) :: d' else (k', v') :: dict_set d' k v
  end.

Fixpoint dict_get (d : pydict) (k : string) : option pyval :=
  match d with
  | [] => None
  | (k', v') :: d' => if decide (k' = k) then Some v' else dict_get d' k
  end.

Definition dict_keys (d : pydict) : list string := d.*1.

(** What the libraries decide. *)
Class PyLib := {
  (** the order in which a [set] of strings is iterated *)
  set_iter : gset string → list string;
  set_iter_perm : ∀ X, set_iter X ≡ₚ elements X;
  (** the parser of [pd.to_datetime]: [None] when the value does not parse *)
  parse_datetime : pyval → option Timestamp;
  (** whether [pd.merge] accepts the two key columns: it refuses key columns
      of incompatible dtypes, such as object and int64 *)
  mergeable : list pyval → list pyval → bool;
  (** whether two join keys of [pd.merge] match *)
  key_match : pyval → pyval → bool;
  (** [str()] of a Timestamp and of a container *)
  py_repr : pyval → string
}.

(** *** Formatting *)

Definition digit_char (n : nat) : ascii := ascii_of_nat (48 + n mod 10).

(** The [w] low decimal digits of [n], most significant first: [n]
    zero-padded to width [w] when [n < 10 ^ w]. *)
Fixpoint zero_padded (w n : nat) : string :=
  match w with
  | O => ""
  | S w' => zero_padded w' (n / 10) +:+ String (digit_char n) ""
  end.

(** [value.strftime('%Y-%m-%d')] *)
Definition strftime_Ymd (t : Timestamp) : string :=
  zero_padded 4 (ts_year t) +:+ "-" +:+ zero_padded 2 (ts_month t)
    +:+ "-" +:+ zero_padded 2 (ts_day t).



(** *** The tests of [build_json] *)

(** [pd.isna] on a scalar. *)
Definition checknull (s : scalar) : bool :=
  match s with
  | SNone | SNaN | SNaT => true
  | _ => false
  end.

(** The native null markers, as cell values. *)
Definition is_null (v : pyval) : bool :=
  match v with
  | Scalar s => checknull s
  | _ => false
  end.

(** The truth value of [pd.isna(value)] in [if pd.isna(value):].  On a
    scalar [pd.isna] gives a bool, on a dict [False], and on a list the
    array of the element-wise answers over [np.asarray(value,
    dtype=object)], whose truth value exists only when it holds exactly one
    element ([ValueError] otherwise; for an empty array this is NumPy 2.2
    and later, before it was [False] with a DeprecationWarning). *)
Fixpoint isna_truth (value : pyval) : result bool :=
  match value with
  | Scalar s => Ok (checknull s)
  | VDict _ => Ok false
  | VList [x] =>
      match x with
      | VList _ => isna_truth x
      | _ => Ok (is_null x)
      end
  | VList _ => Raise ValueError
  end.

(** [isinstance(value, (str, int, float, bool, list, dict, type(None)))] *)
Definition isinstance_json (value : pyval) : bool :=
  match value with
  | Scalar (SStr _) | Scalar (SInt _) | Scalar (SFloat _) | Scalar SNaN
  | Scalar (SBool _) | Scalar SNone => true
  | VList _ | VDict _ => true
  | Scalar SNaT | Scalar (STimestamp _) | Scalar (SOther _) => false
  end.

Section Python.
Context `{!PyLib}.

(** [str(value)] *)
Definition py_str (value : pyval) : string :=
  match value with
  | Scalar SNone => "None"
  | Scalar SNaN => "nan"
  | Scalar SNaT => "NaT"
  | Scalar (SBool true) => "True"
  | Scalar (SBool false) => "False"
  | Scalar (SInt z) => pretty z
  | Scalar (SFloat r) => r
  | Scalar (SStr s) => s
  | Scalar (SOther r) => r
  | _ => py_repr value
  end.

End Python.

(** ** Series *)

(** A row handed to a function by [df.apply(..., axis=1)]: the column
    labels, which may repeat, with the row's cells. *)
Abbreviation Series := (list (string * pyval)).

(** What [row.get] gives back: a cell, or the sub-Series of all the cells
    under a label that occurs more than once. *)
Inductive got :=
| Value (v : pyval)
| SubSeries (vs : list pyval).

(** [row.get(key, default)] *)
Definition Series_get (row : Series) (key : string) (default : pyval) : got :=
  match filter (λ kv, kv.1 = key) row with
  | [] => Value default
  | [kv] => Value kv.2
  | kvs => SubSeries kvs.*2
  end.

(** ** DataFrames *)

Record Row := {
  label : nat;          (* the row's index label *)
  cells : list pyval    (* one cell per column, in column order *)
}.

Record DataFrame := {
  columns : list string;
  rows : list Row
}.

(** Every row has one cell per column. *)
Definition wf_frame (df : DataFrame) : Prop :=
  Forall (λ r, length (cells r) = length (columns df)) (rows df).

(** The row as the Series that [df.apply(..., axis=1)] passes on. *)
Definition row_series (cols : list string) (r : Row) : Series :=
  zip cols (cells r).

(** The cells of a row under a label, one per occurrence of the label. *)
Definition cells_under (cols : list string) (cs : list pyval) (c : string)
  : list pyval :=
  (filter (λ kv, kv.1 = c) (zip cols cs)).*2.

(** The cell under a label, NaN where the row has none. *)
Definition cell (cols : list string) (cs : list pyval) (c : string) : pyval :=
  default (Scalar SNaN) (head (cells_under cols cs c)).

Definition occurrences (c : string) (cols : list string) : nat :=
  length (filter (λ c', c' = c) cols).

(** A fresh [RangeIndex]: labels 0, 1, 2, ... *)
Definition relabel (rs : list Row) : list Row :=
  imap (λ i r, {| label := i; cells := cells r |}) rs.

(** [df.reset_index(drop=True, inplace=True)] *)
Definition reset_index (df : DataFrame) : DataFrame :=
  {| columns := columns df; rows := relabel (rows df) |}.

(** The labels after [rename(columns=mapper)]: a label that is a key of
    the mapper is replaced by its image, any other label stays. *)
Definition renamed (mapper : gmap string string) (cols : list string)
  : list string :=
  (λ c, default c (mapper !! c)) <$> cols.

(** [df.rename(columns=mapper, inplace=True)] *)
Definition rename (mapper : gmap string string) (df : DataFrame) : DataFrame :=
  {| columns := renamed mapper (columns df); rows := rows df |}.

(** [df[c] = values], the values aligned with the rows: every column
    labelled [c] is overwritten, and a new column is added last when there
    is none. *)
Definition set_column (df : DataFrame) (c : string) (values : list pyval)
  : DataFrame :=
  if decide (c ∈ columns df) then
    {| columns := columns df;
       rows := zip_with (λ r v,
         {| label := label r;
            cells := zip_with (λ c' old, if decide (c' = c) then v else old)
                       (columns df) (cells r) |}) (rows df) values |}
  else
    {| columns := columns df ++ [c];
       rows := zip_with (λ r v,
         {| label := label r; cells := cells r ++ [v] |}) (rows df) values |}.

(** [df[c] = value] for a scalar, broadcast to every row. *)
Definition setitem_scalar (df : DataFrame) (c : string) (value : scalar)
  : DataFrame :=
  set_column df c (replicate (length (rows df)) (Scalar value)).

(** [df[keys]] for a list of labels: for each key in turn, every column
    with that label; [KeyError] when a key labels no column. *)
Definition getitem_list (df : DataFrame) (keys : list string)
  : result DataFrame :=
  if decide (Forall (λ k, k ∈ columns df) keys) then
    Ok {| columns := keys ≫= (λ k, filter (λ c, c = k) (columns df));
          rows := (λ r, {| label := label r;
                           cells := keys ≫= cells_under (columns df) (cells r) |})
                  <$> rows df |}
  else Raise KeyError.

(** [cell == s] for a string [s]. *)
Definition eq_str (v : pyval) (s : string) : bool :=
  match v with
  | Scalar (SStr s') => bool_decide (s' = s)
  | _ => false
  end.

(** [df[df[c] == s].copy()]: the rows whose cell under [c] is the string
    [s], with their labels.  [KeyError] without a column [c]; with several,
    [df[c]] is a DataFrame and indexing by the frame of booleans raises
    [ValueError] (cannot reindex on an axis with duplicate labels). *)
Definition filter_eq (df : DataFrame) (c s : string) : result DataFrame :=
  match occurrences c (columns df) with
  | 0 => Raise KeyError
  | 1 => Ok {| columns := columns df;
               rows := filter (λ r, eq_str (cell (columns df) (cells r) c) s = true)
                         (rows df) |}
  | _ => Raise ValueError
  end.

(** [Index.duplicated()]: the positions that repeat an earlier label. *)
Definition duplicated (l : list string) : list bool :=
  imap (λ i x, bool_decide (x ∈ take i l)) l.

(** The suffixed labels repeat where the original ones did not. *)
Definition suffix_clash (old new : list string) : bool :=
  existsb (λ p, p.1 && negb p.2) (zip (duplicated new) (duplicated old)).

(** Apply [f] to every cell under the label [c]. *)
Definition map_label (f : pyval → pyval) (c : string) (df : DataFrame)
  : DataFrame :=
  {| columns := columns df;
     rows := (λ r, {| label := label r;
                      cells := zip_with (λ c' v, if decide (c' = c) then f v else v)
                                 (columns df) (cells r) |}) <$> rows df |}.

(** A row of one frame laid out on the columns [new] of the union: NaN
    under the labels the frame lacks. *)
Definition reindex (old new : list string) (r : Row) : Row :=
  {| label := label r; cells := cell old (cells r) <$> new |}.

(** [pd.concat([a, b], ignore_index=True)]: the union of the columns in
    order of first appearance, the rows of [a] then those of [b], NaN where
    a frame lacks a column, labels reset.  Frames whose columns differ can
    only be laid out on the union when their labels are unique
    ([InvalidIndexError] otherwise). *)
Definition concat (a b : DataFrame) : result DataFrame :=
  if decide (columns a = columns b) then
    Ok {| columns := columns a; rows := relabel (rows a ++ rows b) |}
  else if decide (NoDup (columns a) ∧ NoDup (columns b)) then
    let cols := columns a ++ filter (λ c : string, c ∉ columns a) (columns b) in
    Ok {| columns := cols;
          rows := relabel ((reindex (columns a) cols <$> rows a) ++
                           (reindex (columns b) cols <$> rows b)) |}
  else Raise InvalidIndexError.

Section Pandas.
Context `{!PyLib}.

(** The cells of the column labelled [c], when there is one. *)
Definition column_cells (df : DataFrame) (c : string) : list pyval :=
  (λ r, cell (columns df) (cells r) c) <$> rows df.

(** [pd.merge(left, right, on=on, how='left')].  The key must label one
    column of each frame, and the two key columns must be of compatible
    dtypes.  A label other than the key that both frames use
    takes the suffix [_x] on the left and [_y] on the right, which must not
    create a repeated label within a side.  Every left row, in order, is
    paired with each right row whose key matches, in order, or with NaN
    under the right columns when none does. *)
Definition merge_left (left right : DataFrame) (on : string)
  : result DataFrame :=
  match occurrences on (columns left), occurrences on (columns right) with
  | 0, _ | _, 0 => Raise KeyError
  | 1, 1 =>
      let suffix_x (c : string) :=
        if decide (c ≠ on ∧ c ∈ columns right) then c +:+ "_x" else c in
      let suffix_y (c : string) :=
        if decide (c ≠ on ∧ c ∈ columns left) then c +:+ "_y" else c in
      if negb (mergeable (column_cells left on) (column_cells right on))
      then Raise ValueError
      else if suffix_clash (columns left) (suffix_x <$> columns left)
              || suffix_clash (columns right) (suffix_y <$> columns right)
      then Raise MergeError
      else
        let others cs := (filter (λ kv, kv.1 ≠ on) (zip (columns right) cs)).*2 in
        let join l :=
          match filter (λ r, key_match (cell (columns left) (cells l) on)
                                       (cell (columns right) (cells r) on) = true)
                       (rows right) with
          | [] => [ {| label := label l;
                       cells := cells l ++
                         replicate (length (columns right) - 1) (Scalar SNaN) |} ]
          | matches =>
              (λ r, {| label := label l; cells := cells l ++ others (cells r) |})
              <$> matches
          end in
        Ok {| columns := (suffix_x <$> columns left) ++
                         (suffix_y <$> filter (λ c, c ≠ on) (columns right));
              rows := relabel (rows left ≫= join) |}
  | _, _ => Raise ValueError
  end.

(** [pd.to_datetime(column, errors='coerce')] on one cell. *)
Definition to_datetime_coerce (v : pyval) : pyval :=
  match parse_datetime v with
  | Some t => Scalar (STimestamp t)
  | None => Scalar SNaT
  end.

(** [column.astype(str)] on one cell. *)
Definition astype_str (v : pyval) : pyval := Scalar (SStr (py_str v)).

(** The loop over [datetime_columns].  With a repeated label [df[col]] is
    a DataFrame, which [pd.to_datetime] tries to assemble from year, month
    and day columns: [ValueError]. *)
Definition convert_datetime_columns (datetime_columns : list string)
    (df : DataFrame) : result DataFrame :=
  for_each
    (λ df col,
       if decide (col ∈ columns df) then
         if decide (occurrences col (columns df) = 1)
         then Ok (map_label to_datetime_coerce col df)
         else Raise ValueError
       else Ok df)
    datetime_columns df.

(** The loop over [int_to_str_columns]. *)
Definition convert_str_columns (int_to_str_columns : list string)
    (df : DataFrame) : DataFrame :=
  foldl
    (λ df col,
       if decide (col ∈ columns df) then map_label astype_str col df else df)
    df int_to_str_columns.

(** *** The field projector

    The block both scripts share: rename by the mapping, make sure every
    required column exists, keep the required columns only. *)

(** [set(field_map.values()).union(set(defaults.keys()))] *)
Definition required_columns (field_map : gmap string string)
    (defaults : gmap string scalar) : gset string :=
  map_img field_map ∪ dom defaults.

(** [for column in all_columns: if column not in df.columns: df[column] =
    defaults.get(column, "")] *)
Definition ensure_columns (defaults : gmap string scalar)
    (all_columns : list string) (df : DataFrame) : DataFrame :=
  foldl
    (λ df column,
       if decide (column ∈ columns df) then df
       else setitem_scalar df column (default (SStr "") (defaults !! column)))
    df all_columns.

Definition project (field_map : gmap string string)
    (defaults : gmap string scalar) (df : DataFrame) : result DataFrame :=
  let df := rename field_map df in
  let all_columns := set_iter (required_columns field_map defaults) in
  let df := ensure_columns defaults all_columns df in
  getitem_list df all_columns.

(** *** The alignment with the destination table

    The block of [load_data] both scripts share, between the query for the
    columns of the destination table and the truncation:
    [df = df[[col for col in df.columns if col in valid_columns]]], then
    [for col in valid_columns: if col not in df.columns: df[col] = None]. *)
Definition align_columns (valid_columns : list string) (df : DataFrame)
  : result DataFrame :=
  df ← getitem_list df (filter (λ col, col ∈ valid_columns) (columns df));
  Ok (foldl
        (λ df col,
           if decide (col ∈ columns df) then df else setitem_scalar df col SNone)
        df valid_columns).

End Pandas.

(** ** The mapping document *)

(** A row of a mapping sheet, by the three columns [load_mapping] reads.  A
    cell of a field-name column is empty (NaN, here [None]) or text; an
    empty default cell is the scalar NaN. *)
Record SheetRow := {
  source_field : option string;
  destination_field : option string;
  default_value : scalar
}.

(** [{k: v for k, v in zip(keys, values) if pd.notna(k)}] over the rows of a
    sheet: a row whose key cell is empty is skipped, and a later row replaces
    the entry an earlier row made under the same key. *)
Definition dict_of_rows {V} (key : SheetRow → option string)
    (value : SheetRow → V) (sheet : list SheetRow) : gmap string V :=
  foldl (λ d r, match key r with
                | Some k => <[k := value r]> d
                | None => d
                end) ∅ sheet.

(** ** customer_prof_tbl.py *)

Module CustomerProfTbl.
Section script.
Context `{!PyLib}.

(** [load_mapping], from the four sheets as [pd.read_excel] reads them:
    the two mapping sheets by their rows, the two JSON field sheets by their
    column "Destination Field".  The destination of a rename entry is NaN
    ([None]) when its row names none. *)
Definition load_mapping (df_ind_mapping df_corp_mapping : list SheetRow)
    (df_json_ind df_json_corp : list (option string))
  : gmap string (option string) * gmap string (option string)
    * gmap string scalar * gmap string scalar * list string * list string :=
  let ind_map := dict_of_rows source_field destination_field df_ind_mapping in
  let corp_map := dict_of_rows source_field destination_field df_corp_mapping in
  let ind_defaults := dict_of_rows destination_field default_value df_ind_mapping in
  let corp_defaults :=
    dict_of_rows destination_field default_value df_corp_mapping in
  let json_ind_fields := omap id df_json_ind in
  let json_corp_fields := omap id df_json_corp in
  (ind_map, corp_map, ind_defaults, corp_defaults, json_ind_fields,
   json_corp_fields).

(** The body of the loop of [build_json] up to the assignment: the value
    stored under [field].  On a sub-Series [pd.isna] gives a Series, whose
    truth value is a [ValueError]. *)
Definition json_value (row : Series) (defaults : gmap string scalar)
    (field : string) : result pyval :=
  match Series_get row field (Scalar (default (SStr "") (defaults !! field))) with
  | SubSeries _ => Raise ValueError
  | Value value =>
      let value :=
        match value with
        | Scalar (STimestamp t) => Scalar (SStr (strftime_Ymd t))
        | _ => value
        end in
      na ← isna_truth value;
      let value := if na : bool then Scalar (SStr "") else value in
      let value :=
        if isinstance_json value then value else Scalar (SStr (py_str value)) in
      Ok value
  end.

Definition build_json (row : Series) (json_fields : list string)
    (defaults : gmap string scalar) : result pydict :=
  for_each
    (λ structured_json field,
       value ← json_value row defaults field;
       Ok (dict_set structured_json field value))
    json_fields [].


(** The mapping document as [load_mapping] returns it: the module-level
    [ind_map], [corp_map], [ind_defaults], [corp_defaults],
    [json_ind_fields] and [json_corp_fields]. *)
Record Mapping := {
  ind_map : gmap string string;
  corp_map : gmap string string;
  ind_defaults : gmap string scalar;
  corp_defaults : gmap string scalar;
  json_ind_fields : list string;
  json_corp_fields : list string
}.

Definition datetime_columns : list string := ["createdAt"; "updatedAt"].
Definition int_to_str_columns : list string := ["customerNumber"; "bvn"].

(** [df["customerProfileData"] = df.apply(lambda x: build_json(x,
    json_fields, defaults), axis=1)]: one document per row, in row order; the
    first row on which [build_json] raises ends the run.  On a frame without
    rows the new column is empty. *)
Definition add_profile_data (json_fields : list string)
    (defaults : gmap string scalar) (df : DataFrame) : result DataFrame :=
  docs ← mapM (λ r, build_json (row_series (columns df) r) json_fields defaults)
           (rows df);
  Ok (set_column df "customerProfileData" (VDict <$> docs)).

(** Lines 139-141: the split into Individual and Corporate. *)
Definition split_by_type (df : DataFrame) : result (DataFrame * DataFrame) :=
  df_ind ← filter_eq df "customer_type" "Individual";
  df_corp ← filter_eq df "customer_type" "SME";
  Ok (df_ind, df_corp).

(** Lines 169-186: concatenation, type conversions, index reset. *)
Definition consolidate (df_ind df_corp : DataFrame) : result DataFrame :=
  df_final ← concat df_ind df_corp;
  df_final ← convert_datetime_columns datetime_columns df_final;
  let df_final := convert_str_columns int_to_str_columns df_final in
  Ok (reset_index df_final).

(** The source renames both partitions, then fills both, then selects from
    both; only the selections can raise, Individual first, so taking the
    three steps of each partition together keeps the outcome. *)
Definition transform_data (M : Mapping)
    (stg_customers_df customer_uuids_df : DataFrame) : result DataFrame :=
  df ← merge_left stg_customers_df customer_uuids_df "customer_code";
  '(df_ind, df_corp) ← split_by_type df;
  df_ind ← project (ind_map M) (ind_defaults M) df_ind;
  df_corp ← project (corp_map M) (corp_defaults M) df_corp;
  df_ind ← add_profile_data (json_ind_fields M) (ind_defaults M) df_ind;
  df_corp ← add_profile_data (json_corp_fields M) (corp_defaults M) df_corp;
  consolidate df_ind df_corp.

End script.
End CustomerProfTbl.

(** ** customer_tbl.py *)

Module CustomerTbl.
Section script.
Context `{!PyLib}.

(** [load_mapping], from the sheet "Customer Ind-Corporate" as
    [pd.read_excel] reads it. *)
Definition load_mapping (df_mapping : list SheetRow)
  : gmap string (option string) * gmap string scalar :=
  let field_map := dict_of_rows source_field destination_field df_mapping in
  let default_values :=
    dict_of_rows destination_field default_value df_mapping in
  (field_map, default_values).

Definition datetime_columns : list string := ["createdAt"; "updatedAt"].

(** [field_map] and [default_values] are what [load_mapping] returns. *)
Definition transform_data (field_map : gmap string string)
    (default_values : gmap string scalar)
    (stg_customers_df customer_uuids_df : DataFrame) : result DataFrame :=
  df_all ← merge_left stg_customers_df customer_uuids_df "customer_code";
  df_all ← project field_map default_values df_all;
  df_all ← convert_datetime_columns datetime_columns df_all;
  Ok (reset_index df_all).

End script.
End CustomerTbl.

(** ** Vocabulary of the statements *)

(** The distinct elements of a list in order of first occurrence: the keys
    of a [dict] filled by assigning the elements in turn. *)
Definition first_occurrences (l : list string) : list string :=
  foldl (λ acc x, if decide (x ∈ acc) then acc else acc ++ [x]) [] l.

(** [if pd.isna(value):] does not raise. *)
Definition truth_defined (v : pyval) : bool :=
  match isna_truth v with
  | Ok _ => true
  | Raise _ => false
  end.

(** [out] is [df] with every cell under a label [c] replaced by its image
    under [g c]: same columns, same rows in the same order and with the same
    labels. *)
Definition cellwise (g : string → pyval → pyval) (df out : DataFrame) : Prop :=
  columns out = columns df
  ∧ length (rows out) = length (rows df)
  ∧ ∀ i r, rows df !! i = Some r →
      ∃ r', rows out !! i = Some r'
        ∧ label r' = label r
        ∧ ∀ c, cells_under (columns out) (cells r') c
               = g c <$> cells_under (columns df) (cells r) c.

Section vocabulary.
Context `{!PyLib}.



End vocabulary.



(** The record gives [build_json] a value for the field without raising:
    the label is absent, or occurs once with a value that has a truth value
    under [pd.isna]. *)
Definition resolvable (row : Series) (field : string) : Prop :=
  match filter (λ kv, kv.1 = field) row with
  | [] => True
  | [kv] => truth_defined kv.2 = true
  | _ => False
  end.

(** ** Sample data *)

(** One choice of the library behaviours, to run the model on examples:
    sets iterate in the order of [elements], only Timestamps parse, any two
    key columns can be merged, join keys match when they are the same string
    or the same integer. *)
Definition sample_lib : PyLib := {|
  set_iter := elements;
  set_iter_perm := λ X, reflexivity (elements X);
  parse_datetime := λ v,
    match v with Scalar (STimestamp t) => Some t | _ => None end;
  mergeable := λ _ _, true;
  key_match := λ a b,
    match a, b with
    | Scalar (SStr x), Scalar (SStr y) => bool_decide (x = y)
    | Scalar (SInt x), Scalar (SInt y) => bool_decide (x = y)
    | _, _ => false
    end;
  py_repr := λ _, "<object>"
|}.

Definition ts_2024_03_05 : Timestamp :=
  {| ts_year := 2024; ts_month := 3; ts_day := 5; ts_time_ns := 0 |}.

(** The mapping of the concrete scenario: one renamed field, two
    defaults, two JSON fields. *)
Definition scenario_rename : gmap string string :=
  {[ "cust_name" := "customerName" ]}.

Definition scenario_defaults : gmap string scalar :=
  {[ "customerName" := SStr "Unknown"; "status" := SStr "ACTIVE" ]}.

Definition scenario_fields : list string := ["customerName"; "status"].

Definition scenario_frame : DataFrame :=
  {| columns := ["cust_name"; "customer_type"];
     rows := [ {| label := 0;
                  cells := [Scalar (SStr "Acme"); Scalar (SStr "SME")] |} ] |}.

(** A record with a Timestamp, a NaT, a None and a field left to the
    defaults. *)
Definition sample_row : Series :=
  [ ("customerName", Scalar (SStr "Acme"));
    ("createdAt", Scalar (STimestamp ts_2024_03_05));
    ("closedAt", Scalar SNaT);
    ("status", Scalar SNone) ].

Definition sample_fields : list string :=
  ["customerName"; "status"; "createdAt"; "closedAt"; "segment"].

Definition sample_doc : pydict :=
  [ ("customerName", Scalar (SStr "Acme"));
    ("status", Scalar (SStr ""));
    ("createdAt", Scalar (SStr "2024-03-05"));
    ("closedAt", Scalar (SStr ""));
    ("segment", Scalar (SStr "")) ].

(** Six staging records, three typed Individual, two SME and one of an
    unknown type, and identifiers for three of them. *)
Definition sample_stg : DataFrame :=
  {| columns := ["customer_code"; "cust_name"; "customer_type"; "created_at";
                 "bvn"];
     rows :=
       [ {| label := 0;
            cells := [Scalar (SInt 1); Scalar (SStr "Ada");
                      Scalar (SStr "Individual");
                      Scalar (STimestamp ts_2024_03_05); Scalar (SInt 22) ] |};
         {| label := 1;
            cells := [Scalar (SInt 2); Scalar (SStr "Acme");
                      Scalar (SStr "SME"); Scalar SNaT; Scalar SNone ] |};
         {| label := 2;
            cells := [Scalar (SInt 3); Scalar (SStr "Bob");
                      Scalar (SStr "Individual"); Scalar (SStr "n/a");
                      Scalar SNaN ] |};
         {| label := 3;
            cells := [Scalar (SInt 4); Scalar (SStr "Zed");
                      Scalar (SStr "Other"); Scalar SNaT; Scalar SNone ] |};
         {| label := 4;
            cells := [Scalar (SInt 5); Scalar (SStr "Cyd");
                      Scalar (SStr "Individual"); Scalar SNaT;
                      Scalar (SInt 33) ] |};
         {| label := 5;
            cells := [Scalar (SInt 6); Scalar (SStr "Bolt");
                      Scalar (SStr "SME"); Scalar SNaT; Scalar SNone ] |} ] |}.


Definition sample_mapping : CustomerProfTbl.Mapping :=
  {| CustomerProfTbl.ind_map :=
       {[ "cust_name" := "customerName"; "created_at" := "createdAt";
          "customer_id" := "customerId" ]};
     CustomerProfTbl.corp_map :=
       {[ "cust_name" := "customerName"; "customer_id" := "customerId" ]};
     CustomerProfTbl.ind_defaults := scenario_defaults;
     CustomerProfTbl.corp_defaults :=
       {[ "customerName" := SStr "Unknown"; "rcNumber" := SNaN ]};
     CustomerProfTbl.json_ind_fields := ["customerName"; "status"; "createdAt"];
     CustomerProfTbl.json_corp_fields := ["customerName"; "rcNumber"] |}.

(** Partitions of three and of two rows, with different columns. *)
Definition sample_ind : DataFrame :=
  {| columns := ["customerName"; "bvn"];
     rows :=
       [ {| label := 0; cells := [Scalar (SStr "Ada"); Scalar (SInt 22)] |};
         {| label := 2; cells := [Scalar (SStr "Bob"); Scalar SNaN] |};
         {| label := 4; cells := [Scalar (SStr "Cyd"); Scalar SNone] |} ] |}.

Definition sample_corp : DataFrame :=
  {| columns := ["customerName"; "createdAt"];
     rows :=
       [ {| label := 1;
            cells := [Scalar (SStr "Acme");
                      Scalar (STimestamp ts_2024_03_05)] |};
         {| label := 5;
            cells := [Scalar (SStr "Bolt"); Scalar (SStr "n/a")] |} ] |}.

(** A mapping sheet: a renamed field without a default, a field that only
    has a default, a row without names, and a second row for the first
    source field. *)
Definition sample_sheet : list SheetRow :=
  [ {| source_field := Some "cust_name";
       destination_field := Some "customerName";
       default_value := SNaN |};
    {| source_field := None;
       destination_field := Some "status";
       default_value := SStr "ACTIVE" |};
    {| source_field := None;
       destination_field := None;
       default_value := SNaN |};
    {| source_field := Some "cust_name";
       destination_field := Some "fullName";
       default_value := SStr "Unknown" |} ].

(** An identifier table that names the key 2 twice. *)
Definition sample_uuids_repeated : DataFrame :=
  {| columns := ["customer_code"; "customer_id"];
     rows :=
       [ {| label := 0;
            cells := [Scalar (SInt 2); Scalar (SOther "uuid-2")] |};
         {| label := 1;
            cells := [Scalar (SInt 2); Scalar (SOther "uuid-2b")] |} ] |}.

(** An identifier table with a column [customer_type] of its own. *)
Definition sample_uuids_typed : DataFrame :=
  {| columns := ["customer_code"; "customer_id"; "customer_type"];
     rows :=
       [ {| label := 0;
            cells := [Scalar (SInt 1); Scalar (SOther "uuid-1");
                      Scalar (SStr "Individual")] |} ] |}.

(** Two source columns with one destination. *)
Definition two_names_rename : gmap string string :=
  {[ "cust_name" := "customerName"; "trade_name" := "customerName" ]}.

Definition two_names_frame : DataFrame :=
  {| columns := ["cust_name"; "trade_name"];
     rows := [ {| label := 0;
                  cells := [Scalar (SStr "Acme"); Scalar (SStr "Acme Ltd")] |} ] |}.

(** * Properties *)

(** ** The result monad *)

Lemma bind_Ok {A B} (a : A) (k : A → result B) : (x ← Ok a; k x) = k a.
Proof. done. Qed.

Lemma bind_Raise {A B} (e : exn) (k : A → result B) :
  (x ← Raise e; k x) = Raise e.
Proof. done. Qed.

(** ** Dictionaries *)

Lemma dict_keys_set d k v :
  dict_keys (dict_set d k v) =
  if decide (k ∈ dict_keys d) then dict_keys d else dict_keys d ++ [k].
Proof.
  unfold dict_keys. induction d as [|[k' v'] d IH]; csimpl.
  - done.
  - destruct (decide (k' = k)) as [->|Hne]; csimpl.
    + rewrite decide_True; [done | set_solver].
    + rewrite IH. destruct (decide (k ∈ d.*1)) as [Hin|Hin].
      * rewrite decide_True; [done | set_solver].
      * rewrite decide_False; [done | set_solver].
Qed.

Lemma dict_get_set d k v k' :
  dict_get (dict_set d k v) k' = if decide (k = k') then Some v else dict_get d k'.
Proof.
  induction d as [|[k0 v0] d IH]; simpl.
  - destruct (decide (k = k')); done.
  - destruct (decide (k0 = k)) as [->|Hne]; simpl.
    + destruct (decide (k = k')); done.
    + rewrite IH. destruct (decide (k0 = k')) as [->|?].
      * rewrite decide_False; [done | congruence].
      * done.
Qed.

Lemma dict_get_keys d k : is_Some (dict_get d k) ↔ k ∈ dict_keys d.
Proof.
  unfold dict_keys. induction d as [|[k0 v0] d IH]; simpl.
  - split; [intros [? [=]] | set_solver].
  - destruct (decide (k0 = k)) as [->|Hne].
    + split; [set_solver | eauto].
    + rewrite IH. set_solver.
Qed.



(** ** The JSON document builder *)

Section build_json_facts.
Context `{!PyLib}.
Import CustomerProfTbl.

Lemma filter_key_absent (row : Series) key :
  key ∉ row.*1 ↔ filter (λ kv, kv.1 = key) row = [].
Proof.
  induction row as [|[k v] row IH]; csimpl.
  - split; [done | set_solver].
  - rewrite filter_cons. simpl. destruct (decide (k = key)) as [->|Hne].
    + split; [set_solver | done].
    + rewrite <- IH. set_solver.
Qed.

Lemma filter_key_NoDup (row : Series) key :
  NoDup row.*1 →
  filter (λ kv, kv.1 = key) row = [] ∨
  ∃ v, filter (λ kv, kv.1 = key) row = [(key, v)] ∧ (key, v) ∈ row.
Proof.
  induction row as [|[k v] row IH]; csimpl; intros Hnd.
  - by left.
  - apply NoDup_cons in Hnd as [Hk Hnd]. rewrite filter_cons. simpl.
    destruct (decide (k = key)) as [->|Hne].
    + right. exists v. apply filter_key_absent in Hk. rewrite Hk.
      split; [done | set_solver].
    + destruct (IH Hnd) as [?|(v' & ? & ?)]; [by left|].
      right. exists v'. split; [done | set_solver].
Qed.

Lemma json_value_not_null row defaults field v :
  json_value row defaults field = Ok v → is_null v = false.
Proof.
  unfold json_value.
  destruct (Series_get _ _ _) as [value|?]; [|done].
  destruct value as [s|l|d].
  - destruct s; simpl; intros [= <-]; done.
  - destruct (isna_truth (VList l)) as [[]|]; simpl; [| |done];
      intros [= <-]; done.
  - simpl. intros [= <-]. done.
Qed.



Lemma build_json_loop row defaults json_fields acc doc :
  for_each
    (λ structured_json field,
       value ← json_value row defaults field;
       Ok (dict_set structured_json field value)) json_fields acc = Ok doc →
  dict_keys doc =
    foldl (λ acc x, if decide (x ∈ acc) then acc else acc ++ [x])
      (dict_keys acc) json_fields
  ∧ (∀ f, f ∈ json_fields →
       ∃ v, json_value row defaults f = Ok v ∧ dict_get doc f = Some v)
  ∧ (∀ f, f ∉ json_fields → dict_get doc f = dict_get acc f).
Proof.
  revert acc. induction json_fields as [|x rest IH]; intros acc Hrun;
    simpl in Hrun.
  - injection Hrun as <-. split_and!; [done | set_solver | done].
  - destruct (json_value row defaults x) as [v|e] eqn:Ev; simpl in Hrun;
      [|done].
    apply IH in Hrun as (Hkeys & Hval & Hrest). split_and!.
    + rewrite Hkeys. simpl. by rewrite dict_keys_set.
    + intros f Hf. destruct (decide (f ∈ rest)) as [?|Hnot]; [by apply Hval|].
      assert (f = x) as -> by set_solver.
      exists v. split; [done|]. rewrite (Hrest _ Hnot), dict_get_set.
      by rewrite decide_True.
    + intros f Hf. rewrite Hrest by set_solver. rewrite dict_get_set.
      rewrite decide_False; [done | set_solver].
Qed.

Lemma build_json_returns row json_fields defaults :
  (∀ f, f ∈ json_fields → is_Ok (json_value row defaults f)) →
  is_Ok (build_json row json_fields defaults).
Proof.
  unfold build_json. generalize (@nil (string * pyval)).
  induction json_fields as [|x rest IH]; intros acc Hok; simpl.
  - by eexists.
  - destruct (Hok x) as [v ->]; [set_solver|]. simpl.
    apply IH. intros f Hf. apply Hok. set_solver.
Qed.

Lemma build_json_spec row json_fields defaults doc :
  build_json row json_fields defaults = Ok doc →
  dict_keys doc = first_occurrences json_fields
  ∧ (∀ f, f ∈ json_fields →
       ∃ v, json_value row defaults f = Ok v ∧ dict_get doc f = Some v)
  ∧ (∀ f, f ∉ json_fields → dict_get doc f = None).
Proof. intros Hrun. by apply build_json_loop in Hrun. Qed.


(** C3 (the code at the failing inputs).  A record holding a list of two
    elements, and a record with a repeated label, make the builder raise
    [ValueError] at [if pd.isna(value):]. *)
Theorem build_json_raises :
  build_json [("tags", VList [Scalar (SStr "a"); Scalar (SStr "b")])]
    ["tags"] ∅ = Raise ValueError
  ∧ build_json [("name", Scalar (SStr "x")); ("name", Scalar (SStr "y"))]
      ["name"] ∅ = Raise ValueError.
Proof. split; reflexivity. Qed.







(** C8.  The default of a field is looked at only when the record has no
    such key: for a key the record has, the value stored does not depend on
    the defaults, and when the record holds a null under the key the
    document holds the empty string, whatever default is declared. *)
Theorem build_json_null_ignores_default row json_fields defaults f doc :
  f ∈ json_fields →
  build_json row json_fields defaults = Ok doc →
  (f ∈ row.*1 → json_value row defaults f = json_value row ∅ f)
  ∧ (∀ v, filter (λ kv, kv.1 = f) row = [(f, v)] → is_null v = true →
       dict_get doc f = Some (Scalar (SStr ""))).
Proof.
  intros Hf Hrun. apply build_json_spec in Hrun as (_ & Hval & _).
  destruct (Hval f Hf) as (v & Hv & Hget). split.
  - intros Hin. unfold json_value, Series_get.
    destruct (filter _ row) as [|kv [|kv' rest]] eqn:Hfil; try done.
    apply filter_key_absent in Hfil. done.
  - intros v' Hfil Hnull. rewrite Hget. f_equal.
    unfold json_value, Series_get in Hv. rewrite Hfil in Hv. simpl in Hv.
    destruct v' as [[]| |]; simpl in *; try done; congruence.
Qed.

End build_json_facts.

(** ** Cells under a label *)

Lemma cells_under_nil_l cs c : cells_under [] cs c = [].
Proof. done. Qed.

Lemma cells_under_cons k cols v cs c :
  cells_under (k :: cols) (v :: cs) c =
  (if decide (k = c) then [v] else []) ++ cells_under cols cs c.
Proof.
  unfold cells_under. simpl. rewrite filter_cons. simpl.
  by destruct (decide (k = c)).
Qed.

Lemma cells_under_length cols cs c :
  length cs = length cols →
  length (cells_under cols cs c) = occurrences c cols.
Proof.
  unfold occurrences. revert cs.
  induction cols as [|k cols IH]; intros [|v cs] Hlen; try done.
  rewrite cells_under_cons, filter_cons, length_app, IH by (simpl in *; lia).
  by destruct (decide (k = c)).
Qed.

Lemma cells_under_absent cols cs c : c ∉ cols → cells_under cols cs c = [].
Proof.
  revert cs. induction cols as [|k cols IH]; intros [|v cs] Hc; try done.
  rewrite cells_under_cons, IH by set_solver.
  rewrite decide_False; [done | set_solver].
Qed.

Lemma cells_under_app cols1 cols2 cs1 cs2 c :
  length cs1 = length cols1 →
  cells_under (cols1 ++ cols2) (cs1 ++ cs2) c =
  cells_under cols1 cs1 c ++ cells_under cols2 cs2 c.
Proof.
  intros Hlen. unfold cells_under.
  by rewrite zip_with_app, filter_app, fmap_app.
Qed.

Lemma cells_under_fmap_fresh (f : string → pyval) cols c :
  NoDup cols → c ∈ cols → cells_under cols (f <$> cols) c = [f c].
Proof.
  induction cols as [|k cols IH]; intros Hnd Hc; [set_solver|].
  apply NoDup_cons in Hnd as [Hk Hnd]. rewrite fmap_cons, cells_under_cons.
  destruct (decide (k = c)) as [->|Hne].
  - by rewrite cells_under_absent.
  - rewrite IH; [done | done | set_solver].
Qed.

Lemma cells_under_filter_self cols cs k c :
  length cs = length cols →
  cells_under (filter (λ c', c' = k) cols) (cells_under cols cs k) c =
  if decide (c = k) then cells_under cols cs k else [].
Proof.
  revert cs. induction cols as [|k' cols IH]; intros [|v cs] Hlen; try done.
  - by destruct (decide (c = k)).
  - rewrite cells_under_cons, filter_cons.
    destruct (decide (k' = k)) as [->|Hne]; simpl.
    + rewrite cells_under_cons, IH by (simpl in *; lia).
      destruct (decide (c = k)) as [->|?].
      * by rewrite decide_True.
      * rewrite decide_False; [done | congruence].
    + apply IH. simpl in *; lia.
Qed.

Lemma cells_under_select keys cols cs c :
  NoDup keys → length cs = length cols →
  cells_under (keys ≫= (λ k, filter (λ c', c' = k) cols))
    (keys ≫= cells_under cols cs) c =
  if decide (c ∈ keys) then cells_under cols cs c else [].
Proof.
  intros Hnd Hlen. induction keys as [|k keys IH]; csimpl.
  - done.
  - apply NoDup_cons in Hnd as [Hk Hnd].
    rewrite cells_under_app by (by rewrite cells_under_length).
    rewrite cells_under_filter_self, IH by done.
    destruct (decide (c = k)) as [->|Hne].
    + rewrite (decide_False (P := k ∈ keys)) by done.
      rewrite decide_True by set_solver. by rewrite app_nil_r.
    + destruct (decide (c ∈ keys)) as [Hin|Hin].
      * rewrite decide_True by set_solver. done.
      * rewrite decide_False by set_solver. done.
Qed.

Lemma select_length keys cols cs :
  length cs = length cols →
  length (keys ≫= cells_under cols cs) =
  length (keys ≫= (λ k, filter (λ c', c' = k) cols)).
Proof.
  intros Hlen. induction keys as [|k keys IH]; csimpl; [done|].
  rewrite !length_app, IH. f_equal. by apply cells_under_length.
Qed.

Lemma filter_ext_elem {A} (P Q : A → Prop) `{∀ x, Decision (P x)}
    `{∀ x, Decision (Q x)} (l : list A) :
  (∀ x, x ∈ l → P x ↔ Q x) → filter P l = filter Q l.
Proof.
  induction l as [|x l IH]; intros Hext; [done|].
  rewrite !filter_cons, IH by (intros; apply Hext; set_solver).
  destruct (decide (P x)) as [HP|HP], (decide (Q x)) as [HQ|HQ]; try done;
    exfalso; apply (Hext x) in HP || apply (Hext x) in HQ; set_solver.
Qed.

Lemma zip_with_replicate_length {A B C} (f : A → B → C) (l : list A) (x : B) :
  zip_with f l (replicate (length l) x) = (λ a, f a x) <$> l.
Proof. induction l; csimpl; by f_equal. Qed.

(** ** The field projector *)

Section project_facts.
Context `{!PyLib}.

Lemma set_iter_NoDup X : NoDup (set_iter X).
Proof. rewrite set_iter_perm. apply NoDup_elements. Qed.

Lemma elem_of_set_iter X c : c ∈ set_iter X ↔ c ∈ X.
Proof. rewrite set_iter_perm. apply elem_of_elements. Qed.

Lemma setitem_scalar_fresh df c v :
  c ∉ columns df →
  setitem_scalar df c v =
  {| columns := columns df ++ [c];
     rows := (λ r, {| label := label r; cells := cells r ++ [Scalar v] |})
             <$> rows df |}.
Proof.
  intros Hc. unfold setitem_scalar, set_column.
  rewrite decide_False by done. by rewrite zip_with_replicate_length.
Qed.

(** The missing columns are added last, in the order of the iteration,
    each filled with its default. *)
Lemma ensure_columns_spec defaults all_columns df :
  NoDup all_columns →
  let missing := filter (λ c, c ∉ columns df) all_columns in
  ensure_columns defaults all_columns df =
  {| columns := columns df ++ missing;
     rows := (λ r, {| label := label r;
                      cells := cells r ++
                        ((λ c, Scalar (default (SStr "") (defaults !! c)))
                         <$> missing) |}) <$> rows df |}.
Proof.
  unfold ensure_columns. revert df.
  induction all_columns as [|x rest IH]; intros df Hnd; simpl.
  - destruct df as [cols rs]; simpl. rewrite app_nil_r. f_equal.
    rewrite <- (list_fmap_id rs) at 1. apply list_fmap_ext.
    intros _ [l cs] _. simpl. by rewrite app_nil_r.
  - apply NoDup_cons in Hnd as [Hx Hnd]. rewrite filter_cons.
    destruct (decide (x ∈ columns df)) as [Hin|Hin].
    + rewrite decide_False by (intros ?; done). by apply IH.
    + rewrite decide_True by done.
      rewrite IH by done. rewrite setitem_scalar_fresh by done. simpl.
      assert (filter (λ c, c ∉ columns df ++ [x]) rest
              = filter (λ c, c ∉ columns df) rest) as ->.
      { apply filter_ext_elem. set_solver. }
      rewrite <- app_assoc. simpl. f_equal.
      rewrite <- list_fmap_compose. apply list_fmap_ext.
      intros _ r _. simpl. by rewrite <- app_assoc.
Qed.

Lemma getitem_list_Ok df keys :
  (∀ k, k ∈ keys → k ∈ columns df) →
  getitem_list df keys =
  Ok {| columns := keys ≫= (λ k, filter (λ c, c = k) (columns df));
        rows := (λ r, {| label := label r;
                         cells := keys ≫= cells_under (columns df) (cells r) |})
                <$> rows df |}.
Proof.
  intros Hall. unfold getitem_list. rewrite decide_True; [done|].
  by apply Forall_forall.
Qed.

Lemma selected_columns (cols keys : list string) :
  (∀ k, k ∈ keys → k ∈ cols) →
  list_to_set (keys ≫= (λ k, filter (λ c, c = k) cols)) =@{gset string}
  list_to_set keys.
Proof.
  intros Hall. apply set_eq. intros c.
  rewrite !elem_of_list_to_set, list_elem_of_bind. split.
  - intros (k & Hc & Hk). apply list_elem_of_filter in Hc as [-> _]. done.
  - intros Hc. exists c. split; [|done].
    apply list_elem_of_filter. split; [done | by apply Hall].
Qed.

Lemma project_Ok field_map defaults df :
  let all := set_iter (required_columns field_map defaults) in
  let cols := columns (rename field_map df) in
  let missing := filter (λ c, c ∉ cols) all in
  let fill := (λ c, Scalar (default (SStr "") (defaults !! c))) in
  project field_map defaults df =
  Ok {| columns := all ≫= (λ k, filter (λ c, c = k) (cols ++ missing));
        rows := (λ r, {| label := label r;
                         cells := all ≫= cells_under (cols ++ missing)
                                           (cells r ++ (fill <$> missing)) |})
                <$> rows df |}.
Proof.
  intros all cols missing fill. unfold project. fold all.
  assert (NoDup all) as Hnd by apply set_iter_NoDup.
  rewrite (ensure_columns_spec _ _ _ Hnd). cbv zeta. fold cols missing.
  rewrite getitem_list_Ok.
  - simpl. rewrite <- list_fmap_compose. done.
  - intros k Hk. simpl. destruct (decide (k ∈ cols)); [set_solver|].
    apply elem_of_app. right. by apply list_elem_of_filter.
Qed.

(** C1.  Projecting a well-formed frame always succeeds and keeps its
    rows, one for one and with their labels.  The key set of every projected
    record is exactly [rename.values() ∪ defaults.keys()].  Under a field of
    that set the record holds what the renamed source record holds there,
    and, when no column carries the field after the renaming,
    [defaults.get(field, "")]: the empty string when no default is
    declared. *)
Theorem project_key_set field_map defaults df :
  wf_frame df →
  ∃ out,
    project field_map defaults df = Ok out
    ∧ wf_frame out
    ∧ length (rows out) = length (rows df)
    ∧ ∀ i r, rows df !! i = Some r →
        ∃ r', rows out !! i = Some r'
          ∧ label r' = label r
          ∧ list_to_set (row_series (columns out) r').*1
              =@{gset string} map_img field_map ∪ dom defaults
          ∧ ∀ c, c ∈ map_img (SA:=gset string) field_map ∪ dom defaults →
              (c ∈ renamed field_map (columns df) →
               cells_under (columns out) (cells r') c
               = cells_under (renamed field_map (columns df)) (cells r) c)
              ∧ (c ∉ renamed field_map (columns df) →
                 cells_under (columns out) (cells r') c
                 = [Scalar (default (SStr "") (defaults !! c))]
                 ∧ (defaults !! c = None →
                    cells_under (columns out) (cells r') c
                    = [Scalar (SStr "")])).
Proof.
  intros Hwf. rewrite project_Ok. eexists. split; [reflexivity|].
  set (all := set_iter (required_columns field_map defaults)).
  assert (NoDup all) as Hnd by apply set_iter_NoDup.
  change (columns (rename field_map df))
    with (renamed field_map (columns df)).
  set (cols := renamed field_map (columns df)).
  set (missing := filter (λ c, c ∉ cols) all).
  set (fill := (λ c, Scalar (default (SStr "") (defaults !! c)))).
  assert (∀ k, k ∈ all → k ∈ cols ++ missing) as Hpresent.
  { intros k Hk. destruct (decide (k ∈ cols)); [set_solver|].
    apply elem_of_app. right. by apply list_elem_of_filter. }
  assert (length cols = length (columns df)) as Hcols
    by (unfold cols, renamed; by rewrite length_fmap).
  unfold wf_frame in Hwf. rewrite Forall_lookup in Hwf.
  simpl. split_and!.
  - unfold wf_frame. simpl. apply Forall_lookup. intros i r' Hr'.
    rewrite list_lookup_fmap in Hr'.
    destruct (rows df !! i) as [r|] eqn:Hr; simplify_eq/=.
    apply select_length. rewrite !length_app, length_fmap, Hcols.
    by rewrite (Hwf _ _ Hr).
  - by rewrite length_fmap.
  - intros i r Hr. rewrite list_lookup_fmap, Hr. eexists.
    split; [reflexivity|]. simpl. split; [done|].
    assert (length (cells r ++ (fill <$> missing)) = length (cols ++ missing))
      as Hlen
      by (rewrite !length_app, length_fmap, Hcols; by rewrite (Hwf _ _ Hr)).
    split.
    + unfold row_series. simpl. rewrite fst_zip.
      * rewrite selected_columns by done. apply set_eq. intros c.
        rewrite elem_of_list_to_set. apply elem_of_set_iter.
      * rewrite select_length by done. done.
    + intros c Hc.
      assert (c ∈ all) as Hall by by apply elem_of_set_iter.
      rewrite cells_under_select by done. rewrite decide_True by done.
      rewrite cells_under_app by (rewrite Hcols; by apply (Hwf _ _ Hr)).
      split.
      * intros Hin. rewrite (cells_under_absent missing), app_nil_r; [done|].
        intros Hm. by apply list_elem_of_filter in Hm as [? _].
      * intros Hout.
        assert (c ∈ missing) as Hmiss by by apply list_elem_of_filter.
        rewrite cells_under_absent by done. simpl.
        rewrite (cells_under_fmap_fresh fill) by (by apply NoDup_filter || done).
        split; [done|]. intros Hnone. unfold fill. by rewrite Hnone.
Qed.

End project_facts.

(** ** The record classifier *)

Section classifier_facts.
Context `{!PyLib}.
Import CustomerProfTbl.

Lemma filter_eq_Ok df c s :
  occurrences c (columns df) = 1 →
  filter_eq df c s =
  Ok {| columns := columns df;
        rows := filter (λ r, eq_str (cell (columns df) (cells r) c) s = true)
                  (rows df) |}.
Proof. intros Hocc. unfold filter_eq. by rewrite Hocc. Qed.

Lemma eq_str_true v s : eq_str v s = true ↔ v = Scalar (SStr s).
Proof.
  destruct v as [[]| |]; simpl; try (split; [done | intros [=]]).
  rewrite bool_decide_eq_true. split; [by intros -> | by intros [= ->]].
Qed.

Lemma length_filter_disjoint {A} (P Q : A → Prop) `{∀ x, Decision (P x)}
    `{∀ x, Decision (Q x)} (l : list A) :
  (∀ x, P x → Q x → False) →
  length (filter P l) + length (filter Q l) ≤ length l.
Proof.
  intros Hdisj. induction l as [|x l IH]; [done|].
  rewrite !filter_cons.
  destruct (decide (P x)) as [HP|], (decide (Q x)) as [HQ|]; simpl; try lia.
  destruct (Hdisj x HP HQ).
Qed.

(** C4.  With one discriminator column the split returns two partitions
    of the joined rows: a record typed "Individual" is in the Individual
    partition and not in the Corporate one, a record typed "SME" the other
    way round, any other record in neither; the partitions keep the order
    of the input and together have no more rows than it. *)
Theorem split_by_type_partition df :
  occurrences "customer_type" (columns df) = 1 →
  ∃ df_ind df_corp,
    split_by_type df = Ok (df_ind, df_corp)
    ∧ (∀ r, r ∈ rows df →
         let t := cell (columns df) (cells r) "customer_type" in
         (t = Scalar (SStr "Individual") →
            (r ∈ rows df_ind) ∧ (r ∉ rows df_corp))
         ∧ (t = Scalar (SStr "SME") →
            (r ∈ rows df_corp) ∧ (r ∉ rows df_ind))
         ∧ (t ≠ Scalar (SStr "Individual") → t ≠ Scalar (SStr "SME") →
            (r ∉ rows df_ind) ∧ (r ∉ rows df_corp)))
    ∧ rows df_ind `sublist_of` rows df
    ∧ rows df_corp `sublist_of` rows df
    ∧ length (rows df_ind) + length (rows df_corp) ≤ length (rows df).
Proof.
  intros Hocc. unfold split_by_type. rewrite !filter_eq_Ok by done.
  do 2 eexists. split; [reflexivity|]. simpl. split_and!.
  - intros r Hr. split_and!.
    + intros Ht. rewrite !list_elem_of_filter, !eq_str_true.
      rewrite Ht. split; [done | intros [[=] _]].
    + intros Ht. rewrite !list_elem_of_filter, !eq_str_true.
      rewrite Ht. split; [done | intros [[=] _]].
    + intros Hi Hs. rewrite !list_elem_of_filter, !eq_str_true.
      split; intros [? _]; done.
  - apply sublist_filter.
  - apply sublist_filter.
  - apply length_filter_disjoint. intros r Hi Hs.
    apply eq_str_true in Hi, Hs. congruence.
Qed.

End classifier_facts.

(** ** The type normalizer *)

Section normalizer_facts.
Context `{!PyLib}.

Lemma cells_under_zip_with (f : pyval → pyval) cols cs c c0 :
  cells_under cols
    (zip_with (λ c' v, if decide (c' = c) then f v else v) cols cs) c0
  = (if decide (c0 = c) then f else id) <$> cells_under cols cs c0.
Proof.
  revert cs. induction cols as [|k cols IH]; intros [|v cs]; try done.
  simpl. rewrite !cells_under_cons, fmap_app, IH. f_equal.
  destruct (decide (k = c0)) as [->|Hne]; [|done].
  by destruct (decide (c0 = c)).
Qed.


Lemma occurrences_absent c (cols : list string) :
  c ∉ cols → occurrences c cols = 0.
Proof.
  unfold occurrences. induction cols as [|k cols IH]; [done|].
  intros Hin. rewrite filter_cons, decide_False by set_solver.
  apply IH. set_solver.
Qed.


Lemma cellwise_refl df : cellwise (λ _ v, v) df df.
Proof.
  split_and!; try done. intros i r Hr. exists r. split_and!; try done.
  intros c. by rewrite list_fmap_id.
Qed.

Lemma cellwise_trans g h a b c :
  cellwise g a b → cellwise h b c → cellwise (λ l v, h l (g l v)) a c.
Proof.
  intros (Hc1 & Hl1 & H1) (Hc2 & Hl2 & H2). split_and!; try congruence.
  intros i r Hr. destruct (H1 i r Hr) as (r1 & Hr1 & Hlab1 & Hcell1).
  destruct (H2 i r1 Hr1) as (r2 & Hr2 & Hlab2 & Hcell2).
  exists r2. split_and!; try congruence.
  intros l. rewrite Hcell2, Hcell1, <- list_fmap_compose. done.
Qed.

Lemma cellwise_ext g h a b :
  (∀ l v, g l v = h l v) → cellwise g a b → cellwise h a b.
Proof.
  intros Hext (Hc & Hl & Hr). split_and!; try done.
  intros i r Hi. destruct (Hr i r Hi) as (r' & ? & ? & Hcell).
  exists r'. split_and!; try done. intros c. rewrite Hcell.
  apply list_fmap_ext. intros; apply Hext.
Qed.

Lemma map_label_cellwise f col df :
  cellwise (λ c v, if decide (c = col) then f v else v) df (map_label f col df).
Proof.
  split_and!; simpl; [done | by rewrite length_fmap |].
  intros i r Hr. rewrite list_lookup_fmap, Hr. simpl. eexists.
  split_and!; try done. intros c. simpl. rewrite cells_under_zip_with.
  by destruct (decide (c = col)).
Qed.

(** The guarded conversion [if col in df.columns: df[col] = f(df[col])]. *)
Lemma guarded_map_label_cellwise f col df :
  cellwise (λ c v, if decide (c = col) then f v else v) df
    (if decide (col ∈ columns df) then map_label f col df else df).
Proof.
  destruct (decide (col ∈ columns df)) as [Hin|Hin].
  - apply map_label_cellwise.
  - split_and!; try done. intros i r Hr. exists r. split_and!; try done.
    intros c. destruct (decide (c = col)) as [->|].
    + by rewrite cells_under_absent.
    + by rewrite list_fmap_id.
Qed.



Lemma convert_str_columns_cellwise df :
  cellwise
    (λ c v, if decide (c ∈ CustomerProfTbl.int_to_str_columns)
            then astype_str v else v)
    df (convert_str_columns CustomerProfTbl.int_to_str_columns df).
Proof.
  unfold convert_str_columns, CustomerProfTbl.int_to_str_columns. simpl.
  set (df1 := if decide ("customerNumber" ∈ columns df)
              then map_label astype_str "customerNumber" df else df).
  pose proof (guarded_map_label_cellwise astype_str "customerNumber" df) as H1.
  pose proof (guarded_map_label_cellwise astype_str "bvn" df1) as H2.
  eapply cellwise_ext; [|exact (cellwise_trans _ _ _ _ _ H1 H2)].
  intros l v. simpl.
  destruct (decide (l = "customerNumber")) as [Hc|Hc],
    (decide (l = "bvn")) as [Hu|Hu]; subst; try done.
  rewrite decide_False by set_solver. done.
Qed.


(** C9 (amended).  The conversion to text of [customerNumber] and [bvn]
    replaces every cell under the two labels by the string of its value and
    leaves the other cells as they are; a NaN becomes the text "nan", a None
    the text "None" and a NaT the text "NaT", so no cell under the two
    labels is a null marker afterwards. *)
Theorem convert_str_columns_text df :
  cellwise
    (λ c v,
       if decide (c ∈ CustomerProfTbl.int_to_str_columns)
       then Scalar (SStr (py_str v)) else v)
    df (convert_str_columns CustomerProfTbl.int_to_str_columns df)
  ∧ py_str (Scalar SNaN) = "nan"
  ∧ py_str (Scalar SNone) = "None"
  ∧ py_str (Scalar SNaT) = "NaT"
  ∧ ∀ v, is_null (Scalar (SStr (py_str v))) = false.
Proof.
  split_and!; try done. apply convert_str_columns_cellwise.
Qed.

End normalizer_facts.

(** ** The consolidator *)

Section consolidator_facts.
Context `{!PyLib}.
Import CustomerProfTbl.

Lemma relabel_labels rs : label <$> relabel rs = seq 0 (length rs).
Proof.
  unfold relabel. rewrite fmap_imap.
  rewrite (imap_ext _ (λ i _, id i)) by done.
  by rewrite imap_seq_0, list_fmap_id.
Qed.


Lemma relabel_length rs : length (relabel rs) = length rs.
Proof. unfold relabel. by rewrite length_imap. Qed.







End consolidator_facts.

(** ** The join *)

Section join_facts.
Context `{!PyLib}.







End join_facts.

(** ** The pipelines *)

Section pipeline_facts.
Context `{!PyLib}.
Import CustomerProfTbl.

Lemma filter_label_single (cols : list string) k :
  NoDup cols → k ∈ cols → filter (λ c, c = k) cols = [k].
Proof.
  induction cols as [|c cols IH]; intros Hnd Hk; [set_solver|].
  apply NoDup_cons in Hnd as [Hc Hnd]. rewrite filter_cons.
  destruct (decide (c = k)) as [->|Hne].
  - f_equal. pose proof (occurrences_absent k cols Hc) as Habs.
    unfold occurrences in Habs. by apply nil_length_inv.
  - apply IH; [done | set_solver].
Qed.

Lemma select_all_NoDup (all cols : list string) :
  NoDup cols → (∀ k, k ∈ all → k ∈ cols) →
  all ≫= (λ k, filter (λ c, c = k) cols) = all.
Proof.
  intros Hnd Hall. induction all as [|k all IH]; csimpl; [done|].
  rewrite filter_label_single, IH by set_solver. done.
Qed.












End pipeline_facts.

(** * Further properties *)

(** ** More on the JSON document builder *)

Section build_json_more.
Context `{!PyLib}.
Import CustomerProfTbl.

Lemma isna_truth_ValueError v e : isna_truth v = Raise e → e = ValueError.
Proof.
  revert v e. fix IH 1. intros [s|l|d] e; simpl.
  - discriminate.
  - destruct l as [|x [|y l']].
    + by intros [= <-].
    + intros Hx. apply (IH x).
      destruct x as [s|l|d]; [discriminate | exact Hx | discriminate].
    + by intros [= <-].
  - discriminate.
Qed.

Lemma json_value_ValueError row defaults field e :
  json_value row defaults field = Raise e → e = ValueError.
Proof.
  unfold json_value. destruct (Series_get _ _ _) as [value|?];
    [|by intros [= <-]].
  set (value' := match value with
                 | Scalar (STimestamp t) => Scalar (SStr (strftime_Ymd t))
                 | _ => value
                 end).
  destruct (isna_truth value') as [na|e'] eqn:Hna; simpl; [discriminate|].
  intros [= <-]. by eapply isna_truth_ValueError.
Qed.

Lemma json_value_resolvable row defaults field :
  is_Ok (json_value row defaults field) ↔ resolvable row field.
Proof.
  unfold json_value, Series_get, resolvable, truth_defined.
  destruct (filter _ row) as [|[k v] [|kv' rest]]; simpl.
  - split; [done|]. intros _. destruct (default _ _); simpl; by eexists.
  - destruct v as [s|l|d].
    + split; [done|]. intros _. destruct s; simpl; by eexists.
    + destruct (isna_truth (VList l)) as [[]|]; simpl;
        (split; [done || by intros [? [=]] | done || (intros _; by eexists)]).
    + split; [done|]. intros _. simpl. by eexists.
  - split; [by intros [? [=]] | done].
Qed.

Lemma for_each_raises {A S} (step : S → A → result S) xs acc e0 :
  (∀ a x e, step a x = Raise e → e = e0) →
  (∃ x, x ∈ xs ∧ ∀ a, ¬ is_Ok (step a x)) →
  for_each step xs acc = Raise e0.
Proof.
  intros Hexn. revert acc. induction xs as [|x xs IH]; intros acc (y & Hy & Hbad).
  - set_solver.
  - simpl. destruct (step acc x) as [acc'|e] eqn:Hstep.
    + rewrite bind_Ok. apply IH. exists y. split; [|done].
      apply elem_of_cons in Hy as [->|Hy]; [|done].
      destruct (Hbad acc). by eexists.
    + rewrite bind_Raise. f_equal. by eapply Hexn.
Qed.

Lemma resolvable_dec row f : Decision (resolvable row f).
Proof.
  unfold resolvable. destruct (filter _ row) as [|kv [|kv' rest]]; simpl;
    [left; exact I | apply _ | right; intros []].
Defined.

Lemma build_json_raise_cases row json_fields defaults :
  (Forall (resolvable row) json_fields →
   is_Ok (build_json row json_fields defaults))
  ∧ (¬ Forall (resolvable row) json_fields →
     build_json row json_fields defaults = Raise ValueError).
Proof.
  split.
  - intros Hall. apply build_json_returns. intros f Hf.
    apply json_value_resolvable. rewrite Forall_forall in Hall. by apply Hall.
  - intros Hnot. apply not_Forall_Exists in Hnot;
      [|intros f; apply resolvable_dec].
    apply Exists_exists in Hnot as (f & Hf & Hbad).
    unfold build_json. apply for_each_raises.
    + intros a x e. destruct (json_value row defaults x) as [v|e'] eqn:Hv;
        simpl; [discriminate|]. intros [= <-].
      by eapply json_value_ValueError.
    + exists f. split; [done|]. intros a [doc Hdoc].
      destruct (json_value row defaults f) as [v|e'] eqn:Hv;
        simpl in Hdoc; [|discriminate].
      apply Hbad. apply (json_value_resolvable row defaults f).
      by eexists.
Qed.

(** X1.  [build_json] returns a document exactly when the record resolves
    every listed field: the label is absent, or occurs once with a value that
    has a truth value under [pd.isna].  Otherwise it raises, and what it
    raises is [ValueError]; what the record holds under labels that are not
    listed never matters. *)
Theorem build_json_raises_exactly row json_fields defaults :
  (Forall (resolvable row) json_fields ↔
   is_Ok (build_json row json_fields defaults))
  ∧ (¬ Forall (resolvable row) json_fields ↔
     build_json row json_fields defaults = Raise ValueError).
Proof.
  destruct (build_json_raise_cases row json_fields defaults) as [Hok Hraise].
  assert (Decision (Forall (resolvable row) json_fields)) as Hdec.
  { apply Forall_dec. intros f. apply resolvable_dec. }
  split; split; try done.
  - intros [doc Hdoc]. destruct Hdec as [?|Hnot]; [done|].
    rewrite (Hraise Hnot) in Hdoc. done.
  - intros Hr Hall. destruct (Hok Hall) as [doc Hdoc]. congruence.
Qed.

(** X2.  Every value of a returned document is of a type the JSON
    serializer accepts, a str, an int, a float, a bool, a list or a dict, and
    is not a null marker. *)
Theorem build_json_serializable row json_fields defaults doc :
  build_json row json_fields defaults = Ok doc →
  ∀ f v, dict_get doc f = Some v →
    isinstance_json v = true ∧ is_null v = false.
Proof.
  intros Hrun f v Hget. apply build_json_spec in Hrun as (_ & Hval & Hout).
  destruct (decide (f ∈ json_fields)) as [Hf|Hf];
    [|rewrite (Hout f Hf) in Hget; done].
  destruct (Hval f Hf) as (v' & Hv' & Hget'). simplify_eq.
  split; [|by eapply json_value_not_null].
  unfold json_value in Hv'.
  destruct (Series_get _ _ _) as [value|?]; [|done].
  destruct value as [s|l|d].
  - destruct s; simpl in Hv'; injection Hv' as <-; done.
  - destruct (isna_truth (VList l)) as [[]|]; simpl in Hv'; [| |done];
      injection Hv' as <-; done.
  - simpl in Hv'. injection Hv' as <-. done.
Qed.

(** X3.  What a returned document stores for a listed field, by the value
    the field resolves to: a str, an int, a float other than NaN, a bool or a
    dict is stored as it is; an object of another type as its [str()]; a list
    of one element that is not a list as it is, unless the element is a null
    marker, in which case the empty string is stored in place of the list. *)
Theorem build_json_stored row json_fields defaults doc f :
  build_json row json_fields defaults = Ok doc →
  f ∈ json_fields →
  ∀ value,
    Series_get row f (Scalar (default (SStr "") (defaults !! f)))
      = Value value →
    (isinstance_json value = true → is_null value = false →
     (∀ l, value ≠ VList l) → dict_get doc f = Some value)
    ∧ (∀ r, value = Scalar (SOther r) →
         dict_get doc f = Some (Scalar (SStr r)))
    ∧ (∀ x, value = VList [x] → (∀ l, x ≠ VList l) →
         dict_get doc f
         = Some (if is_null x then Scalar (SStr "") else VList [x])).
Proof.
  intros Hrun Hf value Hget. apply build_json_spec in Hrun as (_ & Hval & _).
  destruct (Hval f Hf) as (v & Hv & ->).
  unfold json_value in Hv. rewrite Hget in Hv. split_and!.
  - intros Hacc Hnull Hlist. f_equal.
    destruct value as [s|l|d]; [| by destruct (Hlist l) |].
    + destruct s; simpl in *; try done; congruence.
    + simpl in Hv. congruence.
  - intros r ->. simpl in Hv. congruence.
  - intros x -> Hx. f_equal.
    destruct x as [s|l|d]; [| by destruct (Hx l) |].
    + change (isna_truth (VList [Scalar s])) with (Ok (checknull s)) in Hv.
      rewrite bind_Ok in Hv. simpl. destruct (checknull s); simpl in Hv;
        congruence.
    + change (isna_truth (VList [VDict d])) with (Ok false) in Hv.
      rewrite bind_Ok in Hv. simpl in *. congruence.
Qed.

Lemma first_occurrences_from_spec (acc l : list string) :
  NoDup acc →
  let out := foldl (λ acc x, if decide (x ∈ acc) then acc else acc ++ [x])
               acc l in
  NoDup out ∧ (∀ x, x ∈ out ↔ x ∈ acc ∨ x ∈ l)
  ∧ length out ≤ length acc + length l.
Proof.
  revert acc. induction l as [|x l IH]; intros acc Hnd; simpl.
  - split_and!; [done | set_solver | lia].
  - destruct (decide (x ∈ acc)) as [Hin|Hin].
    + destruct (IH acc Hnd) as (H1 & H2 & H3). split_and!; [done | | lia].
      intros y. rewrite H2. set_solver.
    + destruct (IH (acc ++ [x])) as (H1 & H2 & H3).
      { apply NoDup_app. split_and!; [done | set_solver | apply NoDup_singleton]. }
      split_and!; [done | |].
      * intros y. rewrite H2. set_solver.
      * rewrite length_app in H3. simpl in H3. lia.
Qed.

(** X4.  For any field list the keys of a returned document are the
    distinct fields of the list in order of first occurrence: no key twice,
    a key for each listed field and for no other, and at most as many keys
    as the list is long. *)
Theorem build_json_first_occurrences row json_fields defaults doc :
  build_json row json_fields defaults = Ok doc →
  dict_keys doc = first_occurrences json_fields
  ∧ NoDup (dict_keys doc)
  ∧ (∀ f, f ∈ dict_keys doc ↔ f ∈ json_fields)
  ∧ length doc ≤ length json_fields.
Proof.
  intros Hrun. apply build_json_spec in Hrun as (Hkeys & _ & _).
  destruct (first_occurrences_from_spec [] json_fields (NoDup_nil_2))
    as (Hnd & Hin & Hlen).
  fold (first_occurrences json_fields) in Hnd, Hin, Hlen.
  rewrite <- Hkeys in Hnd, Hin, Hlen. split_and!; try done.
  - intros f. rewrite Hin. set_solver.
  - unfold dict_keys in Hlen. rewrite length_fmap in Hlen. simpl in Hlen. lia.
Qed.

Lemma filter_key_Permutation (row row' : Series) key :
  row ≡ₚ row' → NoDup row.*1 →
  filter (λ kv, kv.1 = key) row = filter (λ kv, kv.1 = key) row'.
Proof.
  intros Hperm Hnd.
  assert (NoDup row'.*1) as Hnd' by (by rewrite <- Hperm).
  assert (filter (λ kv, kv.1 = key) row ≡ₚ filter (λ kv, kv.1 = key) row')
    as Hfil by (by rewrite Hperm).
  destruct (filter_key_NoDup row key Hnd) as [E|(v & E & _)];
    destruct (filter_key_NoDup row' key Hnd') as [E'|(v' & E' & _)];
    rewrite E, E' in *; try done.
  - by apply Permutation_nil_l in Hfil.
  - symmetry in Hfil. by apply Permutation_nil_l in Hfil.
  - apply Permutation_singleton_l in Hfil. done.
Qed.

(** X5.  The document does not depend on the order of the record's own
    keys: two records with distinct labels that hold the same entries in a
    different order give the same outcome. *)
Theorem build_json_record_order row row' json_fields defaults :
  row ≡ₚ row' → NoDup row.*1 →
  build_json row json_fields defaults = build_json row' json_fields defaults.
Proof.
  intros Hperm Hnd. unfold build_json. generalize (@nil (string * pyval)).
  induction json_fields as [|f rest IH]; intros acc; simpl; [done|].
  assert (json_value row defaults f = json_value row' defaults f) as ->.
  { unfold json_value, Series_get.
    by rewrite (filter_key_Permutation row row' f Hperm Hnd). }
  destruct (json_value row' defaults f); simpl; [apply IH | done].
Qed.

End build_json_more.

(** ** The mapping loader *)

Section load_mapping_facts.
Context {V : Type} (key : SheetRow → option string) (value : SheetRow → V).

Lemma dict_of_rows_snoc sheet r :
  dict_of_rows key value (sheet ++ [r]) =
  match key r with
  | Some k => <[k := value r]> (dict_of_rows key value sheet)
  | None => dict_of_rows key value sheet
  end.
Proof. unfold dict_of_rows. by rewrite foldl_snoc. Qed.

(** The entry under a key comes from the last row that names the key. *)
Lemma dict_of_rows_lookup sheet k :
  dict_of_rows key value sheet !! k
  = value <$> last (filter (λ r, key r = Some k) sheet).
Proof.
  induction sheet as [|r sheet IH] using rev_ind; [done|].
  rewrite dict_of_rows_snoc, filter_app, filter_cons, filter_nil.
  destruct (key r) as [k'|] eqn:Hk.
  - destruct (decide (k' = k)) as [->|Hne].
    + rewrite lookup_insert_eq, decide_True by done. by rewrite last_snoc.
    + rewrite lookup_insert_ne, decide_False by congruence.
      by rewrite app_nil_r.
  - rewrite decide_False by done. by rewrite app_nil_r.
Qed.

Lemma dict_of_rows_dom sheet :
  dom (dict_of_rows key value sheet) =@{gset string} list_to_set (omap key sheet).
Proof.
  apply set_eq. intros k.
  rewrite elem_of_dom, dict_of_rows_lookup, elem_of_list_to_set,
    list_elem_of_omap, fmap_is_Some, last_is_Some. split.
  - intros Hne. destruct (filter _ sheet) as [|r rest] eqn:Hfil; [done|].
    assert (r ∈ filter (λ r, key r = Some k) sheet) as Hr
      by (rewrite Hfil; set_solver).
    apply list_elem_of_filter in Hr as [? ?]. eauto.
  - intros (r & Hr & Hk) Hnil.
    assert (r ∈ filter (λ r, key r = Some k) sheet) as Hin
      by (by apply list_elem_of_filter).
    rewrite Hnil in Hin. set_solver.
Qed.

End load_mapping_facts.

Section load_mapping_claims.

(** X6.  In the tables [load_mapping] builds from a sheet, the entry under
    a name comes from the last row that carries the name: the rename table
    takes the destination of the last row with that source field, the
    defaults table the default of the last row with that destination field.
    A row without a source field adds nothing to the rename table, yet its
    default enters the defaults table; the two scripts build their tables the
    same way. *)
Theorem load_mapping_last_row sheet :
  (∀ k, (CustomerTbl.load_mapping sheet).1 !! k
        = destination_field
          <$> last (filter (λ r, source_field r = Some k) sheet))
  ∧ (∀ k, (CustomerTbl.load_mapping sheet).2 !! k
          = default_value
            <$> last (filter (λ r, destination_field r = Some k) sheet))
  ∧ (∀ before r after,
       sheet = before ++ r :: after → source_field r = None →
       (CustomerTbl.load_mapping sheet).1
       = (CustomerTbl.load_mapping (before ++ after)).1)
  ∧ (∀ corp json_ind json_corp,
       let '(ind_map, corp_map, ind_defaults, corp_defaults, _, _) :=
         CustomerProfTbl.load_mapping sheet corp json_ind json_corp in
       (ind_map, ind_defaults) = CustomerTbl.load_mapping sheet
       ∧ (corp_map, corp_defaults) = CustomerTbl.load_mapping corp).
Proof.
  split_and!.
  - intros k. apply dict_of_rows_lookup.
  - intros k. apply dict_of_rows_lookup.
  - intros before r after -> Hr. simpl. apply map_eq. intros k.
    rewrite !dict_of_rows_lookup, !filter_app, filter_cons.
    rewrite decide_False by congruence. done.
  - intros corp json_ind json_corp. done.
Qed.

(** X7.  When every row of the sheet that names a source field names a
    destination field, the rename table maps text to text, and the columns
    the projection requires are exactly the destination fields of the sheet,
    each with an entry in the defaults table: the default cell of the last
    row that names it.  So the fallback [""] of [defaults.get(column, "")]
    is never what fills a required column; a column whose default cell is
    empty is filled with that cell, NaN. *)
Theorem load_mapping_required_columns sheet :
  Forall (λ r, is_Some (source_field r) → is_Some (destination_field r)) sheet →
  ∃ field_map : gmap string string,
    (CustomerTbl.load_mapping sheet).1 = Some <$> field_map
    ∧ required_columns field_map (CustomerTbl.load_mapping sheet).2
      = list_to_set (omap destination_field sheet)
    ∧ ∀ c, c ∈ required_columns field_map (CustomerTbl.load_mapping sheet).2 →
        ∃ r, r ∈ sheet ∧ destination_field r = Some c
          ∧ (CustomerTbl.load_mapping sheet).2 !! c = Some (default_value r).
Proof.
  intros Hcomplete. simpl.
  set (raw := dict_of_rows source_field destination_field sheet).
  set (defaults := dict_of_rows destination_field default_value sheet).
  assert (∀ k d, raw !! k = Some d →
            ∃ r, r ∈ sheet ∧ source_field r = Some k ∧ destination_field r = d)
    as Hraw.
  { intros k d. unfold raw. rewrite dict_of_rows_lookup.
    destruct (last _) as [r|] eqn:Hlast; [|done]. intros [= <-].
    apply last_Some_elem_of, list_elem_of_filter in Hlast as [? ?]. eauto. }
  assert (∀ c, c ∈ dom defaults →
            ∃ r, r ∈ sheet ∧ destination_field r = Some c
              ∧ defaults !! c = Some (default_value r)) as Hdef.
  { intros c Hc. apply elem_of_dom in Hc as [v Hv]. unfold defaults in *.
    rewrite dict_of_rows_lookup in *.
    destruct (last _) as [r|] eqn:Hlast; [|done].
    apply last_Some_elem_of, list_elem_of_filter in Hlast as [? ?]. eauto. }
  exists (omap id raw).
  assert (map_img (SA := gset string) (omap id raw) ⊆ dom defaults) as Hsub.
  { intros v Hv. apply elem_of_map_img in Hv as [k Hk].
    rewrite lookup_omap in Hk.
    destruct (raw !! k) as [d|] eqn:Hd; [|done]. simpl in Hk. subst d.
    destruct (Hraw _ _ Hd) as (r & Hr & _ & Hdest).
    unfold defaults. rewrite dict_of_rows_dom, elem_of_list_to_set,
      list_elem_of_omap. eauto. }
  split_and!.
  - apply map_eq. intros k. rewrite lookup_fmap, lookup_omap.
    destruct (raw !! k) as [d|] eqn:Hd; [|done].
    destruct (Hraw _ _ Hd) as (r & Hr & Hsrc & Hdest).
    rewrite Forall_forall in Hcomplete.
    destruct (Hcomplete r Hr) as [c Hc]; [by rewrite Hsrc|].
    assert (d = Some c) as -> by congruence. done.
  - unfold required_columns. fold defaults.
    rewrite <- (dict_of_rows_dom destination_field default_value). fold defaults.
    set_solver.
  - intros c Hc. apply Hdef. unfold required_columns in Hc. set_solver.
Qed.

End load_mapping_claims.

(** ** The alignment with the destination table *)

Section align_facts.
Context `{!PyLib}.

(** Columns added by a loop of scalar assignments guarded by
    [if col not in df.columns]. *)
Lemma fill_columns_spec (g : string → scalar) all_columns df :
  NoDup all_columns →
  let missing := filter (λ c, c ∉ columns df) all_columns in
  foldl (λ df col, if decide (col ∈ columns df) then df
                   else setitem_scalar df col (g col)) df all_columns =
  {| columns := columns df ++ missing;
     rows := (λ r, {| label := label r;
                      cells := cells r ++ ((λ c, Scalar (g c)) <$> missing) |})
             <$> rows df |}.
Proof.
  revert df. induction all_columns as [|x rest IH]; intros df Hnd; simpl.
  - destruct df as [cols rs]; simpl. rewrite app_nil_r. f_equal.
    rewrite <- (list_fmap_id rs) at 1. apply list_fmap_ext.
    intros _ [l cs] _. simpl. by rewrite app_nil_r.
  - apply NoDup_cons in Hnd as [Hx Hnd]. rewrite filter_cons.
    destruct (decide (x ∈ columns df)) as [Hin|Hin].
    + rewrite decide_False by (intros ?; done). by apply IH.
    + rewrite decide_True by done.
      rewrite IH by done. rewrite setitem_scalar_fresh by done. simpl.
      assert (filter (λ c, c ∉ columns df ++ [x]) rest
              = filter (λ c, c ∉ columns df) rest) as ->.
      { apply filter_ext_elem. set_solver. }
      rewrite <- app_assoc. simpl. f_equal.
      rewrite <- list_fmap_compose. apply list_fmap_ext.
      intros _ r _. simpl. by rewrite <- app_assoc.
Qed.

(** X8.  Aligning a well-formed frame with distinct labels on the distinct
    columns of the destination table returns a frame with exactly the columns
    of the table: those the frame has, in the order of the frame, then those
    it lacks, in the order of the table.  The rows are kept one for one with
    their labels; a cell under a column the frame has is kept, a cell under a
    column it lacks is None, and the columns the table does not have are
    gone. *)
Theorem align_columns_exact valid_columns df :
  wf_frame df → NoDup (columns df) → NoDup valid_columns →
  ∃ out,
    align_columns valid_columns df = Ok out
    ∧ wf_frame out
    ∧ columns out = filter (λ c, c ∈ valid_columns) (columns df)
                    ++ filter (λ c, c ∉ columns df) valid_columns
    ∧ list_to_set (columns out) =@{gset string} list_to_set valid_columns
    ∧ length (rows out) = length (rows df)
    ∧ ∀ i r, rows df !! i = Some r →
        ∃ r', rows out !! i = Some r'
          ∧ label r' = label r
          ∧ ∀ c, c ∈ valid_columns →
              (c ∈ columns df →
               cell (columns out) (cells r') c = cell (columns df) (cells r) c)
              ∧ (c ∉ columns df →
                 cell (columns out) (cells r') c = Scalar SNone).
Proof.
  intros Hwf Hnd Hvalid. unfold align_columns.
  set (keys := filter (λ c, c ∈ valid_columns) (columns df)).
  assert (∀ k, k ∈ keys → k ∈ columns df) as Hkeys
    by (intros k Hk; by apply list_elem_of_filter in Hk as [_ ?]).
  assert (NoDup keys) as Hndk by (by apply NoDup_filter).
  rewrite getitem_list_Ok, bind_Ok by done.
  rewrite select_all_NoDup by done.
  rewrite (fill_columns_spec (λ _, SNone)) by done. simpl.
  assert (filter (λ c, c ∉ keys) valid_columns
          = filter (λ c, c ∉ columns df) valid_columns) as ->.
  { apply filter_ext_elem. intros c Hc. unfold keys.
    rewrite list_elem_of_filter. naive_solver. }
  set (missing := filter (λ c, c ∉ columns df) valid_columns).
  unfold wf_frame in Hwf. rewrite Forall_lookup in Hwf.
  assert (∀ r, length (cells r) = length (columns df) →
            length (keys ≫= cells_under (columns df) (cells r)) = length keys)
    as Hsel.
  { intros r Hr. rewrite select_length by done.
    by rewrite select_all_NoDup. }
  eexists. split; [reflexivity|]. simpl. split_and!.
  - unfold wf_frame. simpl. apply Forall_lookup. intros i r' Hr'.
    rewrite !list_lookup_fmap in Hr'.
    destruct (rows df !! i) as [r|] eqn:Hr; simplify_eq/=.
    rewrite !length_app, length_fmap, Hsel by eauto. done.
  - done.
  - apply set_eq. intros c.
    rewrite !elem_of_list_to_set, elem_of_app. unfold keys, missing.
    rewrite !list_elem_of_filter.
    destruct (decide (c ∈ columns df)); naive_solver.
  - by rewrite !length_fmap.
  - intros i r Hr. rewrite !list_lookup_fmap, Hr. simpl.
    eexists. split; [reflexivity|]. simpl. split; [done|].
    intros c Hc.
    assert (cells_under keys (keys ≫= cells_under (columns df) (cells r)) c
            = if decide (c ∈ keys) then cells_under (columns df) (cells r) c
              else []) as Hsame.
    { rewrite <- (select_all_NoDup keys (columns df)) at 1 by done.
      apply cells_under_select; eauto. }
    unfold cell. rewrite cells_under_app by eauto. rewrite Hsame. split.
    + intros Hin. rewrite decide_True by (by apply list_elem_of_filter).
      rewrite (cells_under_absent missing), app_nil_r; [done|].
      unfold missing. rewrite list_elem_of_filter. naive_solver.
    + intros Hout. rewrite decide_False
        by (intros Hk; by apply Hkeys in Hk).
      simpl.
      rewrite (cells_under_fmap_fresh (λ _, Scalar SNone));
        [done | by apply NoDup_filter | by apply list_elem_of_filter].
Qed.

End align_facts.

(** ** Edges of the join and of the pipelines *)

Section edge_facts.
Context `{!PyLib}.
Import CustomerProfTbl.

Lemma length_bind_sum {A B} (f : A → list B) (l : list A) :
  length (l ≫= f) = sum_list_with (λ x, length (f x)) l.
Proof.
  induction l as [|x l IH]; csimpl; [done|]. by rewrite length_app, IH.
Qed.

(** X9.  Whenever the left join returns, every left row is in the result
    once for each right row whose key matches, and once when none does: the
    row count is the sum of these numbers, never less than the number of left
    rows, and the labels are 0, 1, 2, ...  A key that is repeated in the
    identifier table repeats the staging record. *)
Theorem merge_left_row_count left right on out :
  merge_left left right on = Ok out →
  length (rows out)
  = sum_list_with
      (λ l, 1 `max`
            length (filter (λ r, key_match (cell (columns left) (cells l) on)
                                   (cell (columns right) (cells r) on) = true)
                      (rows right)))
      (rows left)
  ∧ length (rows left) ≤ length (rows out)
  ∧ label <$> rows out = seq 0 (length (rows out)).
Proof.
  unfold merge_left. intros Hrun.
  destruct (occurrences on (columns left)) as [|[|?]];
    destruct (occurrences on (columns right)) as [|[|?]]; try done.
  destruct (negb _); [done|]. destruct (_ || _); [done|].
  injection Hrun as <-. simpl.
  assert (∀ l, length (match filter
                 (λ r, key_match (cell (columns left) (cells l) on)
                         (cell (columns right) (cells r) on) = true)
                 (rows right) with
               | [] => [ {| label := label l;
                            cells := cells l ++
                              replicate (length (columns right) - 1)
                                (Scalar SNaN) |} ]
               | m :: ms =>
                   (λ r, {| label := label l;
                            cells := cells l ++
                              (filter (λ kv : string * pyval, kv.1 ≠ on)
                                 (zip (columns right) (cells r))).*2 |})
                   <$> m :: ms
               end)
             = 1 `max`
               length (filter
                 (λ r, key_match (cell (columns left) (cells l) on)
                         (cell (columns right) (cells r) on) = true)
                 (rows right))) as Hjoin.
  { intros l. destruct (filter _ (rows right)) as [|m ms]; [done|].
    rewrite length_fmap. simpl. lia. }
  rewrite relabel_labels, relabel_length, length_bind_sum.
  split_and!; [|  | done].
  - induction (rows left) as [|l ls IH]; simpl; [done|].
    by rewrite Hjoin, IH.
  - induction (rows left) as [|l ls IH]; simpl; [done|].
    rewrite Hjoin. lia.
Qed.


(** X11.  When the join returns a frame without a column [customer_type],
    the profile pipeline raises [KeyError].  That is so when the staging data
    has no such column, and also when the identifier table has one too, since
    the join then renames the two to [customer_type_x] and
    [customer_type_y]. *)
Theorem transform_data_missing_type M stg uuids df :
  merge_left stg uuids "customer_code" = Ok df →
  "customer_type" ∉ columns df →
  CustomerProfTbl.transform_data M stg uuids = Raise KeyError.
Proof.
  intros Hmerge Htype. unfold CustomerProfTbl.transform_data, split_by_type.
  rewrite Hmerge, bind_Ok. unfold filter_eq.
  by rewrite (occurrences_absent _ _ Htype).
Qed.

Lemma occurrences_select (all cols : list string) d :
  NoDup all → d ∈ all →
  occurrences d (all ≫= (λ k, filter (λ c, c = k) cols)) = occurrences d cols.
Proof.
  unfold occurrences. intros Hnd Hd.
  induction all as [|k all IH]; [set_solver|]. csimpl.
  apply NoDup_cons in Hnd as [Hk Hnd]. rewrite filter_app, length_app.
  assert (∀ l : list string, d ∉ l →
            filter (λ c, c = d) (l ≫= (λ k, filter (λ c, c = k) cols)) = [])
    as Hnone.
  { intros l Hl. induction l as [|x l IHl]; [done|]. csimpl.
    rewrite filter_app, IHl by set_solver.
    rewrite list_filter_filter. rewrite app_nil_r.
    assert (x ≠ d) by set_solver.
    clear -H0. induction cols as [|c cols IHc]; [done|].
    rewrite filter_cons. destruct (decide _) as [[? ?]|]; [congruence | done]. }
  destruct (decide (k = d)) as [->|Hne].
  - rewrite Hnone by done. rewrite list_filter_filter. simpl.
    rewrite Nat.add_0_r. f_equal. apply filter_ext_elem. naive_solver.
  - rewrite IH by set_solver. rewrite list_filter_filter.
    assert (filter (λ x, x = d ∧ x = k) cols = []) as ->; [|done].
    clear -Hne. induction cols as [|c cols IHc]; [done|].
    rewrite filter_cons. destruct (decide _) as [[? ?]|]; [congruence | done].
Qed.

(** X12.  When the renaming gives two columns of a partition the same
    label, a label the projection requires and the JSON field list names, the
    projection keeps both columns and the construction of the documents
    raises [ValueError] as soon as the partition has a record: [row.get]
    returns both cells as a Series, which has no truth value. *)
Theorem repeated_json_field_raises field_map defaults json_fields df d :
  wf_frame df → rows df ≠ [] →
  2 ≤ occurrences d (renamed field_map (columns df)) →
  d ∈ required_columns field_map defaults →
  d ∈ json_fields →
  ∃ projected,
    project field_map defaults df = Ok projected
    ∧ occurrences d (columns projected)
      = occurrences d (renamed field_map (columns df))
    ∧ add_profile_data json_fields defaults projected = Raise ValueError.
Proof.
  intros Hwf Hrows Hocc Hreq Hjson. rewrite project_Ok.
  eexists. split; [reflexivity|].
  set (all := set_iter (required_columns field_map defaults)).
  assert (NoDup all) as Hnd by apply set_iter_NoDup.
  assert (d ∈ all) as Hall by (by apply elem_of_set_iter).
  change (columns (rename field_map df)) with (renamed field_map (columns df)).
  set (cols := renamed field_map (columns df)) in *.
  set (missing := filter (λ c, c ∉ cols) all).
  assert (occurrences d (cols ++ missing) = occurrences d cols) as Hsame.
  { unfold occurrences. rewrite filter_app, length_app.
    assert (d ∉ missing) as Hm.
    { unfold missing. rewrite list_elem_of_filter. intros [Hout _].
      apply Hout. destruct (decide (d ∈ cols)) as [|Hno]; [done|].
      apply occurrences_absent in Hno. lia. }
    apply occurrences_absent in Hm. unfold occurrences in Hm. lia. }
  simpl. split; [by rewrite occurrences_select|].
  unfold add_profile_data. simpl.
  destruct (rows df) as [|r rs] eqn:Hr; [done|]. simpl.
  set (cols' := all ≫= (λ k, filter (λ c, c = k) (cols ++ missing))).
  set (r' := {| label := label r; cells := _ |}).
  assert (build_json (row_series cols' r') json_fields defaults
          = Raise ValueError) as ->; [|done].
  apply build_json_raise_cases. intros Hres.
  rewrite Forall_forall in Hres. specialize (Hres d Hjson).
  unfold resolvable in Hres.
  assert (length (filter (λ kv : string * pyval, kv.1 = d) (row_series cols' r'))
          = occurrences d cols') as Hlen.
  { pose proof (cells_under_length cols' (cells r') d) as Hcu.
    unfold cells_under in Hcu. rewrite length_fmap in Hcu. apply Hcu.
    unfold r', cols'. simpl. apply select_length.
    unfold wf_frame in Hwf. rewrite Hr in Hwf. apply Forall_cons in Hwf as [Hw _].
    rewrite !length_app, length_fmap. unfold cols, renamed.
    rewrite length_fmap. lia. }
  unfold cols' in Hlen at 2. rewrite occurrences_select, Hsame in Hlen by done.
  destruct (filter _ (row_series cols' r')) as [|kv [|kv' rest]];
    simpl in Hlen; [lia | lia | done].
Qed.

End edge_facts.

(** ** The conversions and the consolidation, beyond distinct labels *)

Section conversion_facts.
Context `{!PyLib}.
Import CustomerProfTbl.








End conversion_facts.

(** ** The customer pipeline, cell by cell *)

Section customer_pipeline_facts.
Context `{!PyLib}.






End customer_pipeline_facts.

(** * Worked examples *)

(** The concrete scenario: the record [{cust_name: "Acme", customer_type:
    "SME"}] projects to [{customerName: "Acme", status: "ACTIVE"}], and
    without [cust_name] to [{customerName: "Unknown", status: "ACTIVE"}]. *)
Example scenario_projection :
  match project (H := sample_lib) scenario_rename scenario_defaults
          scenario_frame with
  | Ok out =>
      (λ r, (cells_under (columns out) (cells r) "customerName",
             cells_under (columns out) (cells r) "status")) <$> rows out
      = [([Scalar (SStr "Acme")], [Scalar (SStr "ACTIVE")])]
  | Raise _ => False
  end.
Proof. vm_compute. reflexivity. Qed.

Example scenario_projection_default :
  match project (H := sample_lib) scenario_rename scenario_defaults
          {| columns := ["customer_type"];
             rows := [ {| label := 0; cells := [Scalar (SStr "SME")] |} ] |}
  with
  | Ok out =>
      (λ r, (cells_under (columns out) (cells r) "customerName",
             cells_under (columns out) (cells r) "status")) <$> rows out
      = [([Scalar (SStr "Unknown")], [Scalar (SStr "ACTIVE")])]
  | Raise _ => False
  end.
Proof. vm_compute. reflexivity. Qed.

Example scenario_document :
  CustomerProfTbl.build_json (H := sample_lib)
    [("customerName", Scalar (SStr "Acme")); ("status", Scalar (SStr "ACTIVE"))]
    scenario_fields scenario_defaults
  = Ok [("customerName", Scalar (SStr "Acme"));
        ("status", Scalar (SStr "ACTIVE"))].
Proof. vm_compute. reflexivity. Qed.

Example sample_document :
  CustomerProfTbl.build_json (H := sample_lib) sample_row sample_fields
    scenario_defaults = Ok sample_doc.
Proof. vm_compute. reflexivity. Qed.

(** The consolidation scenario: three Individual rows and two Corporate
    rows give five rows labelled 0..4, Individual first. *)
Example consolidation_scenario :
  CustomerProfTbl.consolidate (H := sample_lib) sample_ind sample_corp
  = Ok {| columns := ["customerName"; "bvn"; "createdAt"];
          rows :=
            [ {| label := 0;
                 cells := [Scalar (SStr "Ada"); Scalar (SStr "22");
                           Scalar SNaT] |};
              {| label := 1;
                 cells := [Scalar (SStr "Bob"); Scalar (SStr "nan");
                           Scalar SNaT] |};
              {| label := 2;
                 cells := [Scalar (SStr "Cyd"); Scalar (SStr "None");
                           Scalar SNaT] |};
              {| label := 3;
                 cells := [Scalar (SStr "Acme"); Scalar (SStr "nan");
                           Scalar (STimestamp ts_2024_03_05)] |};
              {| label := 4;
                 cells := [Scalar (SStr "Bolt"); Scalar (SStr "nan");
                           Scalar SNaT] |} ] |}.
Proof. vm_compute. reflexivity. Qed.

(** The date scenario: a Timestamp of 2024-03-05 at midnight is stored as
    the text "2024-03-05". *)
Example scenario_date :
  CustomerProfTbl.build_json (H := sample_lib)
    [("createdAt", Scalar (STimestamp ts_2024_03_05))] ["createdAt"] ∅
  = Ok [("createdAt", Scalar (SStr "2024-03-05"))].
Proof. vm_compute. reflexivity. Qed.

Lemma project_key_set_witness :
  wf_frame scenario_frame
  ∧ ∃ out,
      project (H := sample_lib) scenario_rename scenario_defaults
        scenario_frame = Ok out
      ∧ wf_frame out
      ∧ length (rows out) = 1.
Proof.
  assert (wf_frame scenario_frame) as Hwf by (repeat constructor).
  split; [exact Hwf|].
  destruct (project_key_set (H := sample_lib) scenario_rename
              scenario_defaults scenario_frame Hwf)
    as (out & Hrun & Hout & Hlen & _).
  exists out. split_and!; [exact Hrun | exact Hout | exact Hlen].
Defined.



Lemma split_by_type_partition_witness :
  occurrences "customer_type" (columns sample_stg) = 1
  ∧ ∃ df_ind df_corp,
      CustomerProfTbl.split_by_type sample_stg = Ok (df_ind, df_corp)
      ∧ length (rows df_ind) + length (rows df_corp) ≤ 6.
Proof.
  split; [reflexivity|].
  destruct (split_by_type_partition sample_stg eq_refl)
    as (df_ind & df_corp & Hrun & _ & _ & _ & Hlen).
  exists df_ind, df_corp. split; [exact Hrun | exact Hlen].
Defined.




Lemma build_json_null_ignores_default_witness :
  ("status" ∈ sample_fields
   ∧ CustomerProfTbl.build_json (H := sample_lib) sample_row sample_fields
       scenario_defaults = Ok sample_doc)
  ∧ scenario_defaults !! "status" = Some (SStr "ACTIVE")
  ∧ dict_get sample_doc "status" = Some (Scalar (SStr "")).
Proof.
  assert ("status" ∈ sample_fields) as Hin by compute_done.
  assert (CustomerProfTbl.build_json (H := sample_lib) sample_row
            sample_fields scenario_defaults = Ok sample_doc) as Hrun
    by (vm_compute; reflexivity).
  split; [split; [exact Hin | exact Hrun]|].
  split; [vm_compute; reflexivity|].
  destruct (build_json_null_ignores_default (H := sample_lib) sample_row
              sample_fields scenario_defaults "status" sample_doc Hin Hrun)
    as [_ Hnull].
  apply (Hnull (Scalar SNone)); reflexivity.
Defined.

(** C9 (counterexample).  A None under [bvn] is a null value that the
    conversion maps to the text "None", not to "nan". *)
Lemma convert_str_columns_none :
  is_null (Scalar SNone) = true
  ∧ convert_str_columns (H := sample_lib) CustomerProfTbl.int_to_str_columns
      {| columns := ["bvn"];
         rows := [ {| label := 0; cells := [Scalar SNone] |} ] |}
    = {| columns := ["bvn"];
         rows := [ {| label := 0; cells := [Scalar (SStr "None")] |} ] |}
  ∧ Scalar (SStr "None") ≠ Scalar (SStr "nan").
Proof. split_and!; [reflexivity | vm_compute; reflexivity | done]. Qed.



(** ** Further worked examples *)

Lemma build_json_serializable_witness :
  CustomerProfTbl.build_json (H := sample_lib) sample_row sample_fields
    scenario_defaults = Ok sample_doc
  ∧ isinstance_json (Scalar (SStr "2024-03-05")) = true
  ∧ is_null (Scalar (SStr "2024-03-05")) = false.
Proof.
  assert (CustomerProfTbl.build_json (H := sample_lib) sample_row
            sample_fields scenario_defaults = Ok sample_doc) as Hrun
    by (vm_compute; reflexivity).
  split; [exact Hrun|].
  apply (build_json_serializable (H := sample_lib) sample_row sample_fields
           scenario_defaults sample_doc Hrun "createdAt").
  vm_compute. reflexivity.
Defined.

Lemma build_json_stored_witness :
  ("customerName" ∈ sample_fields
   ∧ CustomerProfTbl.build_json (H := sample_lib) sample_row sample_fields
       scenario_defaults = Ok sample_doc)
  ∧ dict_get sample_doc "customerName" = Some (Scalar (SStr "Acme")).
Proof.
  assert ("customerName" ∈ sample_fields) as Hin by compute_done.
  assert (CustomerProfTbl.build_json (H := sample_lib) sample_row
            sample_fields scenario_defaults = Ok sample_doc) as Hrun
    by (vm_compute; reflexivity).
  split; [split; [exact Hin | exact Hrun]|].
  destruct (build_json_stored (H := sample_lib) sample_row sample_fields
              scenario_defaults sample_doc "customerName" Hrun Hin
              (Scalar (SStr "Acme"))) as (Hkept & _ & _).
  - vm_compute. reflexivity.
  - apply Hkept; [reflexivity | reflexivity | discriminate].
Defined.

Lemma build_json_first_occurrences_witness :
  CustomerProfTbl.build_json (H := sample_lib) sample_row
    ["status"; "customerName"; "status"] scenario_defaults
  = Ok [("status", Scalar (SStr "")); ("customerName", Scalar (SStr "Acme"))]
  ∧ dict_keys [("status", Scalar (SStr ""));
               ("customerName", Scalar (SStr "Acme"))]
    = first_occurrences ["status"; "customerName"; "status"]
  ∧ length [("status", Scalar (SStr ""));
            ("customerName", Scalar (SStr "Acme"))] ≤ 3.
Proof.
  assert (CustomerProfTbl.build_json (H := sample_lib) sample_row
            ["status"; "customerName"; "status"] scenario_defaults
          = Ok [("status", Scalar (SStr ""));
                ("customerName", Scalar (SStr "Acme"))]) as Hrun
    by (vm_compute; reflexivity).
  split; [exact Hrun|].
  destruct (build_json_first_occurrences (H := sample_lib) _ _ _ _ Hrun)
    as (Hkeys & _ & _ & Hlen).
  split; [exact Hkeys | exact Hlen].
Defined.

Lemma build_json_record_order_witness :
  (sample_row ≡ₚ reverse sample_row ∧ NoDup sample_row.*1)
  ∧ CustomerProfTbl.build_json (H := sample_lib) (reverse sample_row)
      sample_fields scenario_defaults
    = CustomerProfTbl.build_json (H := sample_lib) sample_row sample_fields
        scenario_defaults.
Proof.
  assert (sample_row ≡ₚ reverse sample_row) as Hperm
    by (symmetry; apply reverse_Permutation).
  assert (NoDup sample_row.*1) as Hnd by compute_done.
  split; [done|]. symmetry.
  apply (build_json_record_order (H := sample_lib) sample_row
           (reverse sample_row) sample_fields scenario_defaults Hperm Hnd).
Defined.

Lemma load_mapping_required_columns_witness :
  Forall (λ r, is_Some (source_field r) → is_Some (destination_field r))
    sample_sheet
  ∧ ∃ field_map : gmap string string,
      (CustomerTbl.load_mapping sample_sheet).1 = Some <$> field_map
      ∧ required_columns field_map (CustomerTbl.load_mapping sample_sheet).2
        = list_to_set (omap destination_field sample_sheet).
Proof.
  assert (Forall (λ r, is_Some (source_field r) → is_Some (destination_field r))
            sample_sheet) as Hsheet.
  { repeat constructor; simpl; intros [? ?]; by eauto. }
  split; [exact Hsheet|].
  destruct (load_mapping_required_columns sample_sheet Hsheet)
    as (field_map & Hmap & Hreq & _).
  exists field_map. split; [exact Hmap | exact Hreq].
Defined.

Lemma align_columns_exact_witness :
  (wf_frame sample_ind ∧ NoDup (columns sample_ind)
   ∧ NoDup ["bvn"; "customerId"])
  ∧ ∃ out,
      align_columns ["bvn"; "customerId"] sample_ind = Ok out
      ∧ columns out = ["bvn"; "customerId"]
      ∧ length (rows out) = 3.
Proof.
  assert (wf_frame sample_ind) as Hwf by (repeat constructor).
  assert (NoDup (columns sample_ind)) as Hnd by compute_done.
  assert (NoDup ["bvn"; "customerId"]) as Hvalid by compute_done.
  split; [done|].
  destruct (align_columns_exact ["bvn"; "customerId"] sample_ind Hwf Hnd Hvalid)
    as (out & Hrun & _ & Hcols & _ & Hlen & _).
  exists out. split_and!; [exact Hrun | | exact Hlen].
  rewrite Hcols. vm_compute. reflexivity.
Defined.

Lemma merge_left_row_count_witness :
  ∃ out,
    merge_left (H := sample_lib) sample_stg sample_uuids_repeated
      "customer_code" = Ok out
    ∧ length (rows out) = 7
    ∧ label <$> rows out = seq 0 (length (rows out)).
Proof.
  destruct (merge_left (H := sample_lib) sample_stg sample_uuids_repeated
              "customer_code") as [out|e] eqn:Hrun;
    [|vm_compute in Hrun; discriminate].
  exists out. split; [reflexivity|].
  destruct (merge_left_row_count (H := sample_lib) sample_stg
              sample_uuids_repeated "customer_code" out Hrun)
    as (Hlen & _ & Hlab).
  split; [|exact Hlab]. rewrite Hlen. vm_compute. reflexivity.
Defined.


Lemma transform_data_missing_type_witness :
  "customer_type" ∈ columns sample_stg
  ∧ "customer_type" ∈ columns sample_uuids_typed
  ∧ CustomerProfTbl.transform_data (H := sample_lib) sample_mapping
      sample_stg sample_uuids_typed = Raise KeyError.
Proof.
  split; [compute_done|]. split; [compute_done|].
  destruct (merge_left (H := sample_lib) sample_stg sample_uuids_typed
              "customer_code") as [df|e] eqn:Hrun;
    [|vm_compute in Hrun; discriminate].
  apply (transform_data_missing_type (H := sample_lib) sample_mapping
           sample_stg sample_uuids_typed df Hrun).
  vm_compute in Hrun. injection Hrun as <-. compute_done.
Defined.

Lemma repeated_json_field_raises_witness :
  (wf_frame two_names_frame ∧ rows two_names_frame ≠ []
   ∧ 2 ≤ occurrences "customerName"
           (renamed two_names_rename (columns two_names_frame)))
  ∧ ∃ projected,
      project (H := sample_lib) two_names_rename ∅ two_names_frame
        = Ok projected
      ∧ CustomerProfTbl.add_profile_data (H := sample_lib) ["customerName"] ∅
          projected = Raise ValueError.
Proof.
  assert (wf_frame two_names_frame) as Hwf by (repeat constructor).
  assert (rows two_names_frame ≠ []) as Hrows by discriminate.
  assert (2 ≤ occurrences "customerName"
                (renamed two_names_rename (columns two_names_frame))) as Hocc
    by (vm_compute; lia).
  split; [done|].
  destruct (repeated_json_field_raises (H := sample_lib) two_names_rename ∅
              ["customerName"] two_names_frame "customerName" Hwf Hrows Hocc)
    as (projected & Hrun & _ & Hraise); [compute_done | compute_done |].
  exists projected. split; [exact Hrun | exact Hraise].
Defined.



